(** * CoffeeShop backend: the drinks API of [backend/src/api.py]

    A shallow embedding of the Flask handlers of [api.py] together with the
    collaborators they call: Python's [json.dumps] / [json.loads], the
    [Drink] model and the [requires_auth] decorator.

    Conventions of the model.
    - A Python value that came out of [request.get_json()] is a [json]:
      [None], [bool], [int] (as [Z]), [float], [str], [list] and [dict].
      A [dict] is an association list in insertion order.
    - A [float] is named by the decimal literal that stands for it in JSON
      text, the one [float.__repr__] prints, or is an infinity or the NaN.
    - A [str] is held as the UTF-8 bytes of its code points, so that a
      [str] of ASCII characters is the [string] of these characters.
    - Serialized text is a [list ascii] inside the printer and the parser
      and a [string] at the interface ([dumps], [loads]).
    - The [drink] table is a [gmap] from the primary key to the row.
    - The limits of the interpreter (the depth of the recursion of
      [json.loads], the number of digits of an [int]) are not modelled.  *)

From Stdlib Require Import ZArith NArith List Ascii String Decimal DecimalN DecimalFacts Lia Bool.
From stdpp Require Import gmap strings list sorting.

Set Warnings "-register-all".

Local Open Scope Z_scope.

(** ** JSON values as Python sees them *)

(** A Python [float]: a finite one by its decimal literal (sign and
    digits of the integer part, digits of the fraction, exponent), an
    infinity, or the NaN. *)
Inductive pyfloat : Type :=
| Finite (d : decimal)
| Infinite (negative : bool)
| NaN.

Inductive json : Type :=
| JNull
| JBool (b : bool)
| JNum (z : Z)
| JStr (s : string)
| JArr (items : list json)
| JObj (members : list (string * json))
| JFloat (x : pyfloat).

Definition unsigned (i : signed_int) : uint :=
  match i with
  | Pos u => u
  | Neg u => u
  end.

(** Digits that are all zeros. *)
Definition zero_digits (u : uint) : bool :=
  match nzhead u with
  | Nil => true
  | _ => false
  end.

(** [x == 0.0]: the digits of the literal are zeros. *)
Definition float_is_zero (x : pyfloat) : bool :=
  match x with
  | Finite (Decimal i f) => zero_digits (unsigned i) && zero_digits f
  | Finite (DecimalExp i f _) => zero_digits (unsigned i) && zero_digits f
  | Infinite _ => false
  | NaN => false
  end.

(** Python truthiness of a decoded value ([if x:]). *)
Definition truthy (v : json) : bool :=
  match v with
  | JNull => false
  | JBool b => b
  | JNum z => negb (z =? 0)
  | JStr s => negb (String.eqb s EmptyString)
  | JArr l => match l with [] => false | _ => true end
  | JObj m => match m with [] => false | _ => true end
  | JFloat x => negb (float_is_zero x)
  end.

(** [d.get(k)] on the members of a dict: [None] when the key is absent. *)
Fixpoint dict_get (k : string) (m : list (string * json)) : option json :=
  match m with
  | [] => None
  | (k', v) :: m' => if String.eqb k k' then Some v else dict_get k m'
  end.

(** [k in d]. *)
Definition dict_has (k : string) (m : list (string * json)) : bool :=
  match dict_get k m with Some _ => true | None => false end.

(** [d[k] = v]: an existing key keeps its position, a new key goes last. *)
Fixpoint dict_set (k : string) (v : json) (m : list (string * json))
  : list (string * json) :=
  match m with
  | [] => [(k, v)]
  | (k', v') :: m' =>
      if String.eqb k k' then (k, v) :: m' else (k', v') :: dict_set k v m'
  end.

(** [del d[k]]. *)
Definition dict_remove (k : string) (m : list (string * json))
  : list (string * json) :=
  List.filter (fun kv => negb (String.eqb (fst kv) k)) m.

(** ** The code points of a [str] *)

Section Unicode.
Local Open Scope N_scope.

(** A continuation byte of UTF-8. *)
Definition continuation (b : N) : bool := (128 <=? b) && (b <? 192).

(** The code points a [string] encodes: one for a byte below 128, one
    for a sequence of two, three or four bytes (a surrogate is encoded
    like any other code point of three bytes).  A byte that starts no
    such sequence encodes nothing; it is taken for the code point of its
    value, and [str_ok] below refuses the string. *)
Fixpoint code_points (s : string) : list N :=
  match s with
  | EmptyString => []
  | String c1 s1 =>
      let b1 := N_of_ascii c1 in
      let alone := b1 :: code_points s1 in
      if b1 <? 194 then alone
      else
        match s1 with
        | EmptyString => alone
        | String c2 s2 =>
            let b2 := N_of_ascii c2 in
            if b1 <? 224 then
              if continuation b2
              then ((b1 - 192) * 64 + (b2 - 128)) :: code_points s2
              else alone
            else
              match s2 with
              | EmptyString => alone
              | String c3 s3 =>
                  let b3 := N_of_ascii c3 in
                  if b1 <? 240 then
                    let n := (b1 - 224) * 4096 + (b2 - 128) * 64 + (b3 - 128) in
                    if continuation b2 && continuation b3 && (2048 <=? n)
                    then n :: code_points s3
                    else alone
                  else
                    match s3 with
                    | EmptyString => alone
                    | String c4 s4 =>
                        let b4 := N_of_ascii c4 in
                        let n := (b1 - 240) * 262144 + (b2 - 128) * 4096
                                 + (b3 - 128) * 64 + (b4 - 128) in
                        if continuation b2 && continuation b3 && continuation b4
                           && (65536 <=? n) && (n <? 1114112)
                        then n :: code_points s4
                        else alone
                    end
              end
        end
  end.

(** [chr(n)], as the bytes that encode the code point. *)
Definition utf8 (n : N) : list ascii :=
  if n <? 128 then [ascii_of_N n]
  else if n <? 2048
  then [ascii_of_N (192 + n / 64); ascii_of_N (128 + n mod 64)]
  else if n <? 65536
  then [ascii_of_N (224 + n / 4096); ascii_of_N (128 + n / 64 mod 64);
        ascii_of_N (128 + n mod 64)]
  else [ascii_of_N (240 + n / 262144); ascii_of_N (128 + n / 4096 mod 64);
        ascii_of_N (128 + n / 64 mod 64); ascii_of_N (128 + n mod 64)].

Fixpoint prepend (cs : list ascii) (s : string) : string :=
  match cs with
  | [] => s
  | c :: cs' => String c (prepend cs' s)
  end.

(** The [str] of a list of code points. *)
Fixpoint encode_points (ns : list N) : string :=
  match ns with
  | [] => EmptyString
  | n :: ns' => prepend (utf8 n) (encode_points ns')
  end.

Definition high_surrogate (n : N) : bool := (55296 <=? n) && (n <=? 56319).

Definition low_surrogate (n : N) : bool := (56320 <=? n) && (n <=? 57343).

(** A high surrogate right before a low one: [json.loads] reads the two
    escapes [json.dumps] prints for them as one code point. *)
Fixpoint joined_pairs (ns : list N) : bool :=
  match ns with
  | [] => false
  | a :: ns' =>
      match ns' with
      | [] => false
      | b :: _ => (high_surrogate a && low_surrogate b) || joined_pairs ns'
      end
  end.

(** The [string] is the encoding of a [str], and no two of its code
    points read as a surrogate pair. *)
Definition str_ok (s : string) : bool :=
  String.eqb (encode_points (code_points s)) s && negb (joined_pairs (code_points s)).

End Unicode.

(** ** Well-formed values *)

(** The integer part of a literal: [0|[1-9]\d*]. *)
Definition integer_digits (u : uint) : bool :=
  match u with
  | Nil => false
  | D0 Nil => true
  | D0 _ => false
  | _ => true
  end.

Definition some_digits (u : uint) : bool :=
  match u with
  | Nil => false
  | _ => true
  end.

(** The literal is one that [json.loads] reads as a float: its integer
    part has no leading zero, and it has a fraction or an exponent. *)
Definition float_ok (x : pyfloat) : bool :=
  match x with
  | Finite (Decimal i f) => integer_digits (unsigned i) && some_digits f
  | Finite (DecimalExp i f e) => integer_digits (unsigned i) && some_digits (unsigned e)
  | Infinite _ => true
  | NaN => true
  end.

(** A value is well formed when no dict repeats a key, as in every Python
    dict, every string is a [str] and every float has a float literal. *)
Fixpoint distinct_keys (ks : list string) : bool :=
  match ks with
  | [] => true
  | k :: ks' => negb (existsb (String.eqb k) ks') && distinct_keys ks'
  end.

Fixpoint wf_json (v : json) : bool :=
  match v with
  | JStr s => str_ok s
  | JArr l => forallb wf_json l
  | JObj m =>
      distinct_keys (map fst m)
      && forallb (fun kv => str_ok (fst kv) && wf_json (snd kv)) m
  | JFloat x => float_ok x
  | _ => true
  end.

(** ** [json.dumps]: the printer (default separators, [ensure_ascii]) *)

Section Printer.
Local Open Scope char_scope.

Fixpoint chars_of_uint (u : uint) : list ascii :=
  match u with
  | Nil => []
  | D0 u => "0" :: chars_of_uint u
  | D1 u => "1" :: chars_of_uint u
  | D2 u => "2" :: chars_of_uint u
  | D3 u => "3" :: chars_of_uint u
  | D4 u => "4" :: chars_of_uint u
  | D5 u => "5" :: chars_of_uint u
  | D6 u => "6" :: chars_of_uint u
  | D7 u => "7" :: chars_of_uint u
  | D8 u => "8" :: chars_of_uint u
  | D9 u => "9" :: chars_of_uint u
  end.

(** [int.__repr__]. *)
Definition print_int (z : Z) : list ascii :=
  match z with
  | Z0 => ["0"]
  | Zpos p => chars_of_uint (Pos.to_uint p)
  | Zneg p => "-" :: chars_of_uint (Pos.to_uint p)
  end.

Definition print_signed (i : signed_int) : list ascii :=
  match i with
  | Pos u => chars_of_uint u
  | Neg u => "-" :: chars_of_uint u
  end.

Definition print_fraction (f : uint) : list ascii :=
  match f with
  | Nil => []
  | _ => "." :: chars_of_uint f
  end.

(** The exponent as [float.__repr__] writes it, with its sign. *)
Definition print_exponent (e : signed_int) : list ascii :=
  match e with
  | Pos u => "e" :: "+" :: chars_of_uint u
  | Neg u => "e" :: "-" :: chars_of_uint u
  end.

(** [float.__repr__], and the names [json.dumps] has for the floats
    that are no numbers. *)
Definition print_float (x : pyfloat) : list ascii :=
  match x with
  | Finite (Decimal i f) => print_signed i ++ print_fraction f
  | Finite (DecimalExp i f e) => print_signed i ++ print_fraction f ++ print_exponent e
  | Infinite false => ["I"; "n"; "f"; "i"; "n"; "i"; "t"; "y"]
  | Infinite true => ["-"; "I"; "n"; "f"; "i"; "n"; "i"; "t"; "y"]
  | NaN => ["N"; "a"; "N"]
  end.

Definition hex_digit (n : N) : ascii :=
  match n with
  | 0 => "0" | 1 => "1" | 2 => "2" | 3 => "3" | 4 => "4" | 5 => "5"
  | 6 => "6" | 7 => "7" | 8 => "8" | 9 => "9" | 10 => "a" | 11 => "b"
  | 12 => "c" | 13 => "d" | 14 => "e" | _ => "f"
  end%N.

(** [{0:04x}]. *)
Definition hex4 (n : N) : list ascii :=
  [hex_digit (n / 4096 mod 16); hex_digit (n / 256 mod 16);
   hex_digit (n / 16 mod 16); hex_digit (n mod 16)]%N.

(** The replacement [ESCAPE_ASCII] makes for one code point: the short
    escapes of [ESCAPE_DCT]; for the other code points outside
    [' '..'~'], [\uxxxx], or the two escapes of a surrogate pair from
    65536 on; and the character itself otherwise. *)
Definition escape_point (n : N) : list ascii :=
  if (n =? 34)%N then ["\"; "034"]
  else if (n =? 92)%N then ["\"; "\"]
  else if (n =? 8)%N then ["\"; "b"]
  else if (n =? 12)%N then ["\"; "f"]
  else if (n =? 10)%N then ["\"; "n"]
  else if (n =? 13)%N then ["\"; "r"]
  else if (n =? 9)%N then ["\"; "t"]
  else if ((n <? 32) || (126 <? n))%N
       then if (n <? 65536)%N
            then "\" :: "u" :: hex4 n
            else "\" :: "u" :: hex4 (55296 + (n - 65536) / 1024)
                 ++ "\" :: "u" :: hex4 (56320 + (n - 65536) mod 1024)
  else [ascii_of_N n].

Fixpoint escape_points (ns : list N) : list ascii :=
  match ns with
  | [] => []
  | n :: ns' => escape_point n ++ escape_points ns'
  end.

Definition escape_chars (s : string) : list ascii := escape_points (code_points s).

(** [encode_basestring_ascii]. *)
Definition print_string (s : string) : list ascii :=
  "034" :: escape_chars s ++ ["034"].

(** [', '.join(chunks)]. *)
Fixpoint join_comma (chunks : list (list ascii)) : list ascii :=
  match chunks with
  | [] => []
  | [c] => c
  | c :: cs => c ++ "," :: " " :: join_comma cs
  end.

Fixpoint print (v : json) : list ascii :=
  match v with
  | JNull => ["n"; "u"; "l"; "l"]
  | JBool true => ["t"; "r"; "u"; "e"]
  | JBool false => ["f"; "a"; "l"; "s"; "e"]
  | JNum z => print_int z
  | JStr s => print_string s
  | JArr l => "[" :: join_comma (map print l) ++ ["]"]
  | JObj m =>
      "{" :: join_comma
               (map (fun kv => print_string (fst kv) ++ ":" :: " " :: print (snd kv)) m)
          ++ ["}"]
  | JFloat x => print_float x
  end.

End Printer.

Definition dumps (v : json) : string := string_of_list_ascii (print v).


(** ** [json.loads]: the scanner *)

Section Parser.
Local Open Scope char_scope.

(** The characters of [WHITESPACE]: space, tab, line feed, carriage return. *)
Definition is_ws (c : ascii) : bool :=
  let n := N_of_ascii c in
  ((n =? 32) || (n =? 9) || (n =? 10) || (n =? 13))%N.

Fixpoint skip_ws (s : list ascii) : list ascii :=
  match s with
  | c :: r => if is_ws c then skip_ws r else s
  | [] => []
  end.

Fixpoint strip_prefix (p s : list ascii) : option (list ascii) :=
  match p, s with
  | [], _ => Some s
  | a :: p', b :: s' => if Ascii.eqb a b then strip_prefix p' s' else None
  | _ :: _, [] => None
  end.

Definition digit_of_ascii (c : ascii) : option (uint -> uint) :=
  let n := N_of_ascii c in
  if (n =? 48)%N then Some D0 else if (n =? 49)%N then Some D1
  else if (n =? 50)%N then Some D2 else if (n =? 51)%N then Some D3
  else if (n =? 52)%N then Some D4 else if (n =? 53)%N then Some D5
  else if (n =? 54)%N then Some D6 else if (n =? 55)%N then Some D7
  else if (n =? 56)%N then Some D8 else if (n =? 57)%N then Some D9
  else None.

Definition is_digit (c : ascii) : bool :=
  match digit_of_ascii c with Some _ => true | None => false end.

(** The longest run of decimal digits at the head of the text. *)
Fixpoint scan_digits (s : list ascii) : uint * list ascii :=
  match s with
  | c :: r =>
      match digit_of_ascii c with
      | Some d => let (u, r') := scan_digits r in (d u, r')
      | None => (Nil, s)
      end
  | [] => (Nil, [])
  end.

(** The integer part of [NUMBER_RE] without its sign: [0|[1-9]\d*]. *)
Definition scan_integer (s : list ascii) : option (uint * list ascii) :=
  match s with
  | c :: r =>
      if Ascii.eqb c "0" then Some (D0 Nil, r)
      else if is_digit c then Some (scan_digits s)
      else None
  | [] => None
  end.

(** The fraction of [NUMBER_RE], [(\.\d+)?]: no digits when there is
    none. *)
Definition scan_fraction (s : list ascii) : uint * list ascii :=
  match s with
  | c :: r =>
      if Ascii.eqb c "."
      then match scan_digits r with
           | (Nil, _) => (Nil, s)
           | (f, r') => (f, r')
           end
      else (Nil, s)
  | [] => (Nil, [])
  end.

(** The exponent of [NUMBER_RE], [([eE][-+]?\d+)?]. *)
Definition scan_exponent (s : list ascii) : option (signed_int * list ascii) :=
  match s with
  | c :: r =>
      if Ascii.eqb c "e" || Ascii.eqb c "E"
      then let (sign, r1) :=
             match r with
             | c' :: r' =>
                 if Ascii.eqb c' "+" then (Pos, r')
                 else if Ascii.eqb c' "-" then (Neg, r')
                 else (Pos, r)
             | [] => (Pos, r)
             end in
           match scan_digits r1 with
           | (Nil, _) => None
           | (e, r2) => Some (sign e, r2)
           end
      else None
  | [] => None
  end.

(** What [scan_once] makes of a match of [NUMBER_RE] after the sign: a
    float when there is a fraction or an exponent, an [int] otherwise. *)
Definition parse_unsigned (sign : uint -> signed_int) (s : list ascii)
  : option (json * list ascii) :=
  match scan_integer s with
  | None => None
  | Some (u, r) =>
      let (f, r1) := scan_fraction r in
      match scan_exponent r1 with
      | Some (e, r2) => Some (JFloat (Finite (DecimalExp (sign u) f e)), r2)
      | None =>
          match f with
          | Nil =>
              Some (JNum (match sign u with
                          | Pos _ => Z.of_N (N.of_uint u)
                          | Neg _ => - Z.of_N (N.of_uint u)
                          end), r1)
          | _ => Some (JFloat (Finite (Decimal (sign u) f)), r1)
          end
      end
  end.

(** [match_number]: the sign [-?], then the digits. *)
Definition parse_number (s : list ascii) : option (json * list ascii) :=
  match s with
  | c :: r => if Ascii.eqb c "-" then parse_unsigned Neg r else parse_unsigned Pos s
  | [] => None
  end.

Definition hex_value (c : ascii) : option N :=
  let n := N_of_ascii c in
  if ((48 <=? n) && (n <=? 57))%N then Some (n - 48)%N
  else if ((97 <=? n) && (n <=? 102))%N then Some (n - 87)%N
  else if ((65 <=? n) && (n <=? 70))%N then Some (n - 55)%N
  else None.

(** [_decode_uXXXX]: four hexadecimal digits. *)
Definition decode_hex4 (h1 h2 h3 h4 : ascii) : option N :=
  match hex_value h1, hex_value h2, hex_value h3, hex_value h4 with
  | Some a, Some b, Some c, Some d => Some (((a * 16 + b) * 16 + c) * 16 + d)%N
  | _, _, _, _ => None
  end.

(** The [BACKSLASH] table. *)
Definition unescape (e : ascii) : option ascii :=
  let n := N_of_ascii e in
  if (n =? 34)%N then Some "034"
  else if (n =? 92)%N then Some "\"
  else if (n =? 47)%N then Some "/"
  else if (n =? 98)%N then Some "008"
  else if (n =? 102)%N then Some "012"
  else if (n =? 110)%N then Some "010"
  else if (n =? 114)%N then Some "013"
  else if (n =? 116)%N then Some "009"
  else None.

Definition cons_char (c : ascii) (o : option (string * list ascii))
  : option (string * list ascii) :=
  match o with
  | Some (s, r) => Some (String c s, r)
  | None => None
  end.

Fixpoint cons_chars (cs : list ascii) (o : option (string * list ascii))
  : option (string * list ascii) :=
  match cs with
  | [] => o
  | c :: cs' => cons_char c (cons_chars cs' o)
  end.

(** The code point of a surrogate pair. *)
Definition join_surrogates (u u2 : N) : N :=
  (65536 + ((u - 55296) * 1024 + (u2 - 56320)))%N.

(** [scanstring] (strict): the text after the opening quote, up to and
    with the closing quote.  After the escape of a high surrogate, a
    second escape is looked at: a low surrogate makes one code point
    with the first. *)
Fixpoint scanstring (s : list ascii) : option (string * list ascii) :=
  match s with
  | [] => None
  | c :: r =>
      let n := N_of_ascii c in
      if (n =? 34)%N then Some (EmptyString, r)
      else if (n =? 92)%N then
        match r with
        | [] => None
        | e :: r1 =>
            if (N_of_ascii e =? 117)%N then
              match r1 with
              | h1 :: h2 :: h3 :: h4 :: r2 =>
                  match decode_hex4 h1 h2 h3 h4 with
                  | Some u =>
                      if high_surrogate u then
                        match r2 with
                        | b :: r3 =>
                            match r3 with
                            | v :: r4 =>
                                if ((N_of_ascii b =? 92) && (N_of_ascii v =? 117))%N then
                                  match r4 with
                                  | l1 :: l2 :: l3 :: l4 :: r5 =>
                                      match decode_hex4 l1 l2 l3 l4 with
                                      | Some u2 =>
                                          if low_surrogate u2
                                          then cons_chars (utf8 (join_surrogates u u2))
                                                 (scanstring r5)
                                          else cons_chars (utf8 u) (scanstring r2)
                                      | None => None
                                      end
                                  | _ => None
                                  end
                                else cons_chars (utf8 u) (scanstring r2)
                            | [] => cons_chars (utf8 u) (scanstring r2)
                            end
                        | [] => cons_chars (utf8 u) (scanstring r2)
                        end
                      else cons_chars (utf8 u) (scanstring r2)
                  | None => None
                  end
              | _ => None
              end
            else
              match unescape e with
              | Some c' => cons_char c' (scanstring r1)
              | None => None
              end
        end
      else if (n <? 32)%N then None
      else cons_char c (scanstring r)
  end.

Definition lit_null : list ascii := ["n"; "u"; "l"; "l"].
Definition lit_true : list ascii := ["t"; "r"; "u"; "e"].
Definition lit_false : list ascii := ["f"; "a"; "l"; "s"; "e"].
Definition lit_nan : list ascii := ["N"; "a"; "N"].
Definition lit_infinity : list ascii := ["I"; "n"; "f"; "i"; "n"; "i"; "t"; "y"].
Definition lit_minus_infinity : list ascii :=
  ["-"; "I"; "n"; "f"; "i"; "n"; "i"; "t"; "y"].

(** The last cases of [scan_once]: a number, then the constants [NaN],
    [Infinity] and [-Infinity]. *)
Definition parse_number_or_constant (s : list ascii) : option (json * list ascii) :=
  match parse_number s with
  | Some found => Some found
  | None =>
  match strip_prefix lit_nan s with
  | Some r' => Some (JFloat NaN, r')
  | None =>
  match strip_prefix lit_infinity s with
  | Some r' => Some (JFloat (Infinite false), r')
  | None =>
  match strip_prefix lit_minus_infinity s with
  | Some r' => Some (JFloat (Infinite true), r')
  | None => None
  end end end end.

(** [scan_once] with [JSONArray] and [JSONObject].  The three functions
    call each other; [fuel] bounds the calls and is taken from the length
    of the text by [loads].  [JSONObject] collects the pairs and builds
    [dict(pairs)]: a repeated key keeps its first position and its last
    value, which is [dict_set] pair by pair. *)
Fixpoint parse_value (fuel : nat) (s : list ascii) : option (json * list ascii) :=
  match fuel with
  | O => None
  | S fuel =>
      match s with
      | [] => None
      | c :: r =>
          if Ascii.eqb c "034" then
            match scanstring r with
            | Some (str, r') => Some (JStr str, r')
            | None => None
            end
          else if Ascii.eqb c "{" then
            match skip_ws r with
            | [] => None
            | c1 :: r1 =>
                if Ascii.eqb c1 "}" then Some (JObj [], r1)
                else parse_members fuel [] (c1 :: r1)
            end
          else if Ascii.eqb c "[" then
            match skip_ws r with
            | [] => None
            | c1 :: r1 =>
                if Ascii.eqb c1 "]" then Some (JArr [], r1)
                else parse_items fuel [] (c1 :: r1)
            end
          else
            match strip_prefix lit_null s with
            | Some r' => Some (JNull, r')
            | None =>
            match strip_prefix lit_true s with
            | Some r' => Some (JBool true, r')
            | None =>
            match strip_prefix lit_false s with
            | Some r' => Some (JBool false, r')
            | None => parse_number_or_constant s
            end end end
      end
  end
with parse_items (fuel : nat) (acc : list json) (s : list ascii)
  : option (json * list ascii) :=
  match fuel with
  | O => None
  | S fuel =>
      match parse_value fuel s with
      | None => None
      | Some (v, r) =>
          match skip_ws r with
          | [] => None
          | c :: r' =>
              if Ascii.eqb c "]" then Some (JArr (acc ++ [v]), r')
              else if Ascii.eqb c ","
                   then parse_items fuel (acc ++ [v]) (skip_ws r')
                   else None
          end
      end
  end
with parse_members (fuel : nat) (acc : list (string * json)) (s : list ascii)
  : option (json * list ascii) :=
  match fuel with
  | O => None
  | S fuel =>
      match s with
      | [] => None
      | q :: r =>
          if negb (Ascii.eqb q "034") then None
          else
            match scanstring r with
            | None => None
            | Some (k, r1) =>
                match skip_ws r1 with
                | [] => None
                | c :: r2 =>
                    if negb (Ascii.eqb c ":") then None
                    else
                      match parse_value fuel (skip_ws r2) with
                      | None => None
                      | Some (v, r3) =>
                          match skip_ws r3 with
                          | [] => None
                          | c' :: r4 =>
                              if Ascii.eqb c' "}"
                              then Some (JObj (dict_set k v acc), r4)
                              else if Ascii.eqb c' ","
                                   then parse_members fuel (dict_set k v acc) (skip_ws r4)
                                   else None
                          end
                      end
                end
            end
      end
  end.

End Parser.

(** [json.loads]: white space, one value, white space, end of text. *)
Definition loads (text : string) : option json :=
  let s := skip_ws (list_ascii_of_string text) in
  match parse_value (S (List.length s)) s with
  | Some (v, r) => match skip_ws r with [] => Some v | _ :: _ => None end
  | None => None
  end.

(** The printable characters of ASCII, from the space to the tilde. *)
Definition printable (c : ascii) : bool :=
  ((32 <=? N_of_ascii c) && (N_of_ascii c <=? 126))%N.

(** *** Vocabulary of the round trip *)

(** What may follow a value inside the printed text: nothing, or one of
    [,], []] and [}]. *)
Definition at_delim (rest : list ascii) : bool :=
  match rest with
  | [] => true
  | c :: _ => Ascii.eqb c "," || Ascii.eqb c "]" || Ascii.eqb c "}"
  end%char.

(** The statement proved for every value by induction: printed in front
    of a delimiter, it is read back, whatever fuel exceeds its length. *)
Definition reads_back (v : json) : Prop :=
  wf_json v = true ->
  forall fuel rest,
    at_delim rest = true ->
    (List.length (print v) < fuel)%nat ->
    parse_value fuel (print v ++ rest) = Some (v, rest).

(** The text of one member of a dict. *)
Definition print_member (kv : string * json) : list ascii :=
  (print_string (fst kv) ++ ":" :: " " :: print (snd kv))%char.

(** The text after a number goes on with no digit and no point. *)
Definition number_end (rest : list ascii) : bool :=
  match rest with
  | [] => true
  | c :: _ => negb (is_digit c) && negb (Ascii.eqb c ".")
  end%char.

(** The characters a number or one of the constants [NaN], [Infinity]
    and [-Infinity] starts with. *)
Definition number_start (c : ascii) : bool :=
  (is_digit c || Ascii.eqb c "-" || Ascii.eqb c "N" || Ascii.eqb c "I")%char.

(** What [scanstring] finds after the escape of a high surrogate: [None]
    when it raises on a malformed second escape, the low surrogate and
    the text after it when there is one, and nothing otherwise. *)
Definition low_half (s : list ascii) : option (option (N * list ascii)) :=
  match s with
  | b :: v :: r =>
      if ((N_of_ascii b =? 92) && (N_of_ascii v =? 117))%N then
        match r with
        | l1 :: l2 :: l3 :: l4 :: r' =>
            match decode_hex4 l1 l2 l3 l4 with
            | Some u2 => if low_surrogate u2 then Some (Some (u2, r')) else Some None
            | None => None
            end
        | _ => None
        end
      else Some None
  | _ => Some None
  end.
(** ** The drink table *)

(** A row of the [drink] table: the columns [title] and [recipe].  The
    handler stores whatever [body['title']] holds, so the title is a
    decoded value; the recipe column holds the text [json.dumps] made.
    The primary key [id] is the key of the table. *)
Record Drink : Type := mkDrink { title : json; recipe : string }.

(** The operations of the Drink Store, as the log of a request records
    them. *)
Inductive StoreOp : Type :=
| OpListAll
| OpGet (drink_id : Z)
| OpInsert
| OpUpdate (drink_id : Z)
| OpDelete (drink_id : Z).

(** The database: the table, the next key the store assigns, whether the
    backing storage accepts the next commit (a storage failure is a commit
    it refuses), and the log of the store operations called so far. *)
Record Store : Type := mkStore {
  drinks : gmap Z Drink;
  next_id : Z;
  writable : bool;
  calls : list StoreOp
}.

(** ** What a handler can raise, and the handler monad *)

(** Modelled from the spec: the class [AuthError], of the absent
    [auth/auth.py].  The handler of [api.py] reads [error.status_code] and
    [error.error['description']]: the exception carries a code, a
    description and the HTTP status that goes with it. *)
Record AuthError : Type := mkAuthError {
  error_code : string;
  error_description : string;
  status_code : Z
}.

Inductive Raised : Type :=
| HTTPException (code : Z)            (* [abort(code)] *)
| RaisedAuthError (e : AuthError)     (* [raise AuthError(...)] *)
| PythonError (name : string).        (* any other exception *)

(** A computation over the database that returns or raises. *)
Definition M (A : Type) : Type := Store -> (Raised + A) * Store.

Definition ret {A : Type} (a : A) : M A := fun st => (inr a, st).

Definition raise {A : Type} (e : Raised) : M A := fun st => (inl e, st).

Definition bind {A B : Type} (m : M A) (k : A -> M B) : M B :=
  fun st =>
    match m st with
    | (inl e, st') => (inl e, st')
    | (inr a, st') => k a st'
    end.

Notation "x <- m ;; k" := (bind m (fun x => k))
  (at level 100, m at next level, right associativity).
Notation "m ;;; k" := (bind m (fun _ => k))
  (at level 100, right associativity).

(** [abort(code)]. *)
Definition abort {A : Type} (code : Z) : M A := raise (HTTPException code).

(** A step outside the database that may raise: [Some] returns. *)
Definition or_raise {A : Type} (o : option A) (e : Raised) : M A :=
  match o with
  | Some a => ret a
  | None => raise e
  end.

Definition record_call (op : StoreOp) : M unit :=
  fun st =>
    (inr tt, {| drinks := drinks st; next_id := next_id st;
                writable := writable st; calls := calls st ++ [op] |}).

(** ** The Drink model *)

(** Modelled from the spec: the redaction behind [Drink.short], of the
    absent [database/models.py].  An ingredient without its [parts]. *)
Definition redact_ingredient (v : json) : json :=
  match v with
  | JObj m => JObj (dict_remove "parts" m)
  | _ => v
  end.

(** Modelled from the spec: a recipe is one ingredient or a list of
    ingredients, and the short form omits the [parts] of each. *)
Definition redact_recipe (v : json) : json :=
  match v with
  | JArr l => JArr (map redact_ingredient l)
  | _ => redact_ingredient v
  end.

(** Modelled from the spec: [Drink.long], of the absent
    [database/models.py].  The long form is [{id, title, recipe}] with the
    stored recipe parsed; [None] when the stored text does not parse. *)
Definition long (drink_id : Z) (d : Drink) : option json :=
  match loads (recipe d) with
  | Some r => Some (JObj [("id", JNum drink_id); ("title", title d); ("recipe", r)])
  | None => None
  end.

(** Modelled from the spec: [Drink.short], of the absent
    [database/models.py].  The short form is the long form with [parts]
    omitted from the recipe. *)
Definition short (drink_id : Z) (d : Drink) : option json :=
  match loads (recipe d) with
  | Some r =>
      Some (JObj [("id", JNum drink_id); ("title", title d);
                  ("recipe", redact_recipe r)])
  | None => None
  end.

(** [Drink.query.order_by(Drink.id).all()]: the rows by ascending key. *)
Definition by_id (a b : Z * Drink) : Prop := a.1 <= b.1.

#[local] Instance by_id_dec a b : Decision (by_id a b) := Z_le_dec a.1 b.1.

Definition rows_by_id (t : gmap Z Drink) : list (Z * Drink) :=
  merge_sort by_id (map_to_list t).

Definition query_all : M (list (Z * Drink)) :=
  record_call OpListAll ;;;
  fun st => (inr (rows_by_id (drinks st)), st).

(** [Drink.query.filter(Drink.id == id).one_or_none()]. *)
Definition query_one_or_none (drink_id : Z) : M (option Drink) :=
  record_call (OpGet drink_id) ;;;
  fun st => (inr (drinks st !! drink_id), st).

(** Modelled from the spec: the commit behind [Drink.insert],
    [Drink.update] and [Drink.delete], of the absent [database/models.py].
    A mutation is atomic: it is persisted whole, or the storage fails, an
    exception is raised and nothing is persisted. *)
Definition commit (change : Store -> Store) : M unit :=
  fun st =>
    if writable st then (inr tt, change st)
    else (inl (PythonError "OperationalError"), st).

(** Modelled from the spec: [Drink.insert].  The store assigns a new key. *)
Definition Drink_insert (d : Drink) : M Z :=
  record_call OpInsert ;;;
  new_id <- (fun st => (inr (next_id st), st)) ;;
  commit (fun st => {| drinks := <[new_id := d]> (drinks st);
                       next_id := next_id st + 1;
                       writable := writable st; calls := calls st |}) ;;;
  ret new_id.

(** Modelled from the spec: [Drink.update].  The row of the key is
    replaced by the object the handler changed. *)
Definition Drink_update (drink_id : Z) (d : Drink) : M unit :=
  record_call (OpUpdate drink_id) ;;;
  commit (fun st => {| drinks := <[drink_id := d]> (drinks st);
                       next_id := next_id st;
                       writable := writable st; calls := calls st |}).

(** Modelled from the spec: [Drink.delete].  The row of the key is removed. *)
Definition Drink_delete (drink_id : Z) : M unit :=
  record_call (OpDelete drink_id) ;;;
  commit (fun st => {| drinks := delete drink_id (drinks st);
                       next_id := next_id st;
                       writable := writable st; calls := calls st |}).

(** ** Requests and responses *)

(** Why [request.get_json()] raises: the body is not JSON text
    ([BadRequest]), or the content type of the request is not JSON
    ([UnsupportedMediaType], in the versions of the framework that raise
    for it; the others return [None], which is [Decoded JNull]). *)
Inductive BodyFault : Type := BadRequest | UnsupportedMediaType.

(** What [request.get_json()] makes of the body of the request. *)
Inductive Body : Type :=
| Decoded (j : json)
| Undecodable (why : BodyFault).

Record Request : Type := mkRequest {
  authorization : option string;   (* the [Authorization] header *)
  body : Body                      (* the body, as [get_json] finds it *)
}.

(** The status of the exception [get_json] raises. *)
Definition fault_status (why : BodyFault) : Z :=
  match why with
  | BadRequest => 400
  | UnsupportedMediaType => 415
  end.

(** [request.get_json()]. *)
Definition get_json (req : Request) : M json :=
  match body req with
  | Decoded j => ret j
  | Undecodable why => abort (fault_status why)
  end.

(** A response body is what [jsonify] was given, or the error page the
    framework makes for an exception no handler is registered for. *)
Inductive Payload : Type :=
| Json (j : json)
| DefaultErrorPage.

Record Response : Type := mkResponse { status : Z; payload : Payload }.

Definition jsonify (j : json) (code : Z) : Response :=
  {| status := code; payload := Json j |}.

(** ** Authentication *)

(** Modelled from the spec: the decoded claims of a token; [permissions]
    is [None] when the token carries no permissions list. *)
Record Claims : Type := mkClaims { permissions : option (list string) }.

(** Modelled from the spec: why the verification of a token fails
    ([invalid_token], [token_expired], [invalid_claims]). *)
Inductive TokenFault : Type := InvalidToken | TokenExpired | InvalidClaims.

Inductive Verdict : Type :=
| Verified (payload : Claims)
| Rejected (why : TokenFault).

Definition token_fault_name (f : TokenFault) : string :=
  match f with
  | InvalidToken => "invalid_token"
  | TokenExpired => "token_expired"
  | InvalidClaims => "invalid_claims"
  end.

Fixpoint has_space (s : string) : bool :=
  match s with
  | EmptyString => false
  | String c s' => (N_of_ascii c =? 32)%N || has_space s'
  end.

(** Modelled from the spec: the token of a header that is exactly
    [Bearer <token>]. *)
Definition bearer_token (header : string) : option string :=
  if String.prefix "Bearer " header
  then let t := String.substring 7 (String.length header - 7) header in
       if String.eqb t EmptyString || has_space t then None else Some t
  else None.

(** Modelled from the spec: the first step of the Token Verifier, of the
    absent [auth/auth.py]. *)
Definition get_token_auth_header (req : Request) : AuthError + string :=
  match authorization req with
  | None => inl (mkAuthError "missing_header" "Authorization header is expected." 401)
  | Some h =>
      match bearer_token h with
      | Some t => inr t
      | None => inl (mkAuthError "invalid_header" "Authorization header must be a bearer token." 401)
      end
  end.

(** Modelled from the spec: the Permission Checker, of the absent
    [auth/auth.py]. *)
Definition check_permissions (permission : string) (payload : Claims)
  : AuthError + unit :=
  match permissions payload with
  | None => inl (mkAuthError "permissions_missing" "Permissions not included in token." 400)
  | Some ps =>
      if existsb (String.eqb permission) ps then inr tt
      else inl (mkAuthError "unauthorized" "Permission not found." 403)
  end.

(** The routes of the application. *)
Inductive Route : Type :=
| GetDrinks
| GetDrinksDetail
| PostDrinks
| PatchDrinks (drink_id : Z)
| DeleteDrinks (drink_id : Z).

(** [x in body] for the string [x]: a key of a dict, an element of a list,
    a substring of a string; a [TypeError] on the other values. *)
Fixpoint is_substring (needle hay : string) : bool :=
  String.prefix needle hay ||
  match hay with
  | EmptyString => false
  | String _ hay' => is_substring needle hay'
  end.

Definition str_in (x : string) (container : json) : option bool :=
  match container with
  | JObj m => Some (dict_has x m)
  | JArr l =>
      Some (existsb (fun v => match v with JStr s => String.eqb s x | _ => false end) l)
  | JStr s => Some (is_substring x s)
  | _ => None
  end.

(** [body[k]]: a [KeyError] on a dict without the key, a [TypeError] on a
    value that is not a dict (a string key indexes no list and no string). *)
Definition subscript (container : json) (k : string) : M json :=
  match container with
  | JObj m => or_raise (dict_get k m) (PythonError "KeyError")
  | _ => raise (PythonError "TypeError")
  end.

(** [body.get(k)]: [None] for a missing key, an [AttributeError] on a
    value that is not a dict. *)
Definition get_method (container : json) (k : string) : M json :=
  match container with
  | JObj m => ret (match dict_get k m with Some v => v | None => JNull end)
  | _ => raise (PythonError "AttributeError")
  end.

(** [[f(d) for d in drinks]] for a projection that may raise. *)
Fixpoint project_all (f : Z -> Drink -> option json) (rows : list (Z * Drink))
  : option (list json) :=
  match rows with
  | [] => Some []
  | (i, d) :: rows' =>
      match f i d, project_all f rows' with
      | Some j, Some js => Some (j :: js)
      | _, _ => None
      end
  end.

Section App.

(** The check of a token against the signing keys (signature, expiry,
    audience, issuer) is outside the program. *)
Variable verify_decode_jwt : string -> Verdict.

(** Modelled from the spec: the decorator [requires_auth], of the absent
    [auth/auth.py]: Token Verifier, then Permission Checker, then the
    handler with the claims. *)
Definition requires_auth {A : Type} (permission : string) (req : Request)
  (f : Claims -> M A) : M A :=
  match get_token_auth_header req with
  | inl e => raise (RaisedAuthError e)
  | inr token =>
      match verify_decode_jwt token with
      | Rejected why =>
          raise (RaisedAuthError
                   (mkAuthError (token_fault_name why) "Token verification failed." 401))
      | Verified payload =>
          match check_permissions permission payload with
          | inl e => raise (RaisedAuthError e)
          | inr _ => f payload
          end
      end
  end.

(** ** The handlers of [api.py] *)

Definition get_drinks (req : Request) : M Response :=
  drinks <- query_all ;;
  drink <- or_raise (project_all short drinks) (PythonError "JSONDecodeError") ;;
  ret (jsonify (JObj [("success", JBool true); ("drinks", JArr drink)]) 200).

Definition get_drinks_detail (req : Request) : M Response :=
  requires_auth "get:drinks-detail" req (fun payload =>
    drinks <- query_all ;;
    drink <- or_raise (project_all long drinks) (PythonError "JSONDecodeError") ;;
    ret (jsonify (JObj [("success", JBool true); ("drinks", JArr drink)]) 200)).

Definition post_drinks (req : Request) : M Response :=
  requires_auth "post:drinks" req (fun payload =>
    body <- get_json req ;;
    (* if 'title' and 'recipe' not in body: the test is ['recipe' not in body] *)
    missing <- or_raise (option_map negb (str_in "recipe" body)) (PythonError "TypeError") ;;
    (if missing : bool then abort 422 else ret tt) ;;;
    title_value <- subscript body "title" ;;
    recipe_value <- subscript body "recipe" ;;
    let drink := mkDrink title_value (dumps recipe_value) in
    new_id <- Drink_insert drink ;;
    long_form <- or_raise (long new_id drink) (PythonError "JSONDecodeError") ;;
    ret (jsonify (JObj [("success", JBool true); ("drinks", JArr [long_form])]) 200)).

Definition patch_drinks (req : Request) (drink_id : Z) : M Response :=
  requires_auth "patch:drinks" req (fun payload =>
    found <- query_one_or_none drink_id ;;
    body <- get_json req ;;
    match found with
    | None => abort 404
    | Some drink =>
        title_value <- get_method body "title" ;;
        recipe_value <- get_method body "recipe" ;;
        (* if title: drink.title = title *)
        let drink :=
          if truthy title_value then mkDrink title_value (recipe drink) else drink in
        (* if recipe: drink.recipe = json.dumps(body['recipe']) *)
        drink <-
          (if truthy recipe_value
           then supplied <- subscript body "recipe" ;;
                ret (mkDrink (title drink) (dumps supplied))
           else ret drink) ;;
        Drink_update drink_id drink ;;;
        long_form <- or_raise (long drink_id drink) (PythonError "JSONDecodeError") ;;
        ret (jsonify (JObj [("success", JBool true); ("drinks", JArr [long_form])]) 200)
    end).

Definition delete_drinks (req : Request) (drink_id : Z) : M Response :=
  requires_auth "delete:drinks" req (fun payload =>
    found <- query_one_or_none drink_id ;;
    match found with
    | None => abort 404
    | Some drink =>
        Drink_delete drink_id ;;;
        ret (jsonify (JObj [("success", JBool true); ("deleted", JNum drink_id)]) 200)
    end).

(** ** The error handlers and the dispatch *)

Definition error_body (code : Z) (message : string) : json :=
  JObj [("success", JBool false); ("error", JNum code); ("message", JStr message)].

(** [@app.errorhandler(422)]. *)
Definition unprocessable : Response := jsonify (error_body 422 "unprocessable") 422.

(** [@app.errorhandler(404)]. *)
Definition not_found : Response := jsonify (error_body 404 "resource not found") 404.

(** [@app.errorhandler(AuthError)]. *)
Definition auth_error (error : AuthError) : Response :=
  jsonify (error_body (status_code error) (error_description error)) (status_code error).

(** What the framework answers to an exception: the registered handler
    when there is one; its own page with the code of the exception
    otherwise ([abort], or what [get_json] raised), and with 500 for any
    exception that is not an HTTP exception. *)
Definition handle_exception (e : Raised) : Response :=
  match e with
  | RaisedAuthError err => auth_error err
  | HTTPException code =>
      if code =? 422 then unprocessable
      else if code =? 404 then not_found
      else {| status := code; payload := DefaultErrorPage |}
  | PythonError _ => {| status := 500; payload := DefaultErrorPage |}
  end.

Definition view (route : Route) (req : Request) : M Response :=
  match route with
  | GetDrinks => get_drinks req
  | GetDrinksDetail => get_drinks_detail req
  | PostDrinks => post_drinks req
  | PatchDrinks drink_id => patch_drinks req drink_id
  | DeleteDrinks drink_id => delete_drinks req drink_id
  end.

(** One request served on a database: the response and the database
    afterwards. *)
Definition serve (route : Route) (req : Request) (st : Store) : Response * Store :=
  match view route req st with
  | (inr resp, st') => (resp, st')
  | (inl e, st') => (handle_exception e, st')
  end.

End App.

(** ** Vocabulary of the statements *)

(** The request passes [requires_auth] for a route that requires
    [permission]. *)
Definition authorized (verify : string -> Verdict) (permission : string)
  (req : Request) : bool :=
  match get_token_auth_header req with
  | inl _ => false
  | inr token =>
      match verify token with
      | Rejected _ => false
      | Verified payload =>
          match check_permissions permission payload with
          | inl _ => false
          | inr _ => true
          end
      end
  end.

(** The Token Verifier fails on the request: no header, a malformed
    header, or a token that does not verify. *)
Definition token_rejected (verify : string -> Verdict) (req : Request) : bool :=
  match get_token_auth_header req with
  | inl _ => true
  | inr token =>
      match verify token with
      | Rejected _ => true
      | Verified _ => false
      end
  end.

(** The routes behind [requires_auth]. *)
Definition gated (route : Route) : bool :=
  match route with
  | GetDrinks => false
  | _ => true
  end.

(** The permission the decorator of a route asks for; [GET /drinks] has
    no decorator. *)
Definition required_permission (route : Route) : option string :=
  match route with
  | GetDrinks => None
  | GetDrinksDetail => Some "get:drinks-detail"
  | PostDrinks => Some "post:drinks"
  | PatchDrinks _ => Some "patch:drinks"
  | DeleteDrinks _ => Some "delete:drinks"
  end.

(** The value a PATCH body supplies for a field: a missing key and a
    falsy value supply nothing. *)
Definition supplied (k : string) (m : list (string * json)) : option json :=
  match dict_get k m with
  | Some v => if truthy v then Some v else None
  | None => None
  end.

(** The row a PATCH with the dict [m] makes of the row [d]. *)
Definition patched (d : Drink) (m : list (string * json)) : Drink :=
  mkDrink (match supplied "title" m with Some t => t | None => title d end)
          (match supplied "recipe" m with Some r => dumps r | None => recipe d end).

(** The body decodes to a well-formed value, or does not decode. *)
Definition wf_body (b : Body) : bool :=
  match b with
  | Decoded j => wf_json j
  | Undecodable _ => true
  end.

(** The data invariant of the table: every stored recipe is the
    serialization of a well-formed value, and every key is below the next
    key the store assigns. *)
Definition recipe_ok (d : Drink) : Prop :=
  exists r, wf_json r = true /\ recipe d = dumps r.

Definition store_ok (st : Store) : Prop :=
  (forall i d, drinks st !! i = Some d -> recipe_ok d) /\
  (forall i d, drinks st !! i = Some d -> i < next_id st).

(** The database after one more store operation in the log. *)
Definition logged (ops : list StoreOp) (st : Store) : Store :=
  {| drinks := drinks st; next_id := next_id st;
     writable := writable st; calls := calls st ++ ops |}.

(** A sequence of requests served one after the other. *)
Fixpoint serve_all (verify : string -> Verdict) (reqs : list (Route * Request))
  (st : Store) : Store :=
  match reqs with
  | [] => st
  | (route, req) :: reqs' => serve_all verify reqs' (serve verify route req st).2
  end.

(** ** Data of the examples *)

(** A key set for the examples: the token [manager] verifies with every
    permission, [barista] with [get:drinks-detail] only, [expired] is
    expired and any other token is invalid. *)
Definition example_jwt (token : string) : Verdict :=
  if String.eqb token "manager"
  then Verified (mkClaims (Some ["get:drinks-detail"; "post:drinks";
                                 "patch:drinks"; "delete:drinks"]))
  else if String.eqb token "barista"
  then Verified (mkClaims (Some ["get:drinks-detail"]))
  else if String.eqb token "expired" then Rejected TokenExpired
  else Rejected InvalidToken.

Definition manager_request (b : json) : Request :=
  {| authorization := Some "Bearer manager"; body := Decoded b |}.

Definition anonymous_request (b : json) : Request :=
  {| authorization := None; body := Decoded b |}.

(** A recipe, a row and two databases. *)
Definition water : json :=
  JArr [JObj [("name", JStr "water"); ("color", JStr "blue"); ("parts", JNum 1)]].

(** A recipe with a float for its parts and a name outside ASCII. *)
Definition half : pyfloat := Finite (Decimal (Pos (D0 Nil)) (D5 Nil)).

Definition creme : json :=
  JArr [JObj [("name", JStr "crème"); ("color", JStr "white"); ("parts", JFloat half)]].

Definition empty_store : Store :=
  {| drinks := ∅; next_id := 1; writable := true; calls := [] |}.

Definition water_row : Drink := mkDrink (JStr "water") (dumps water).

Definition one_drink : Store :=
  {| drinks := {[ 1 := water_row ]}; next_id := 2; writable := true; calls := [] |}.

Definition creme_row : Drink := mkDrink (JStr "Crème") (dumps creme).

Definition two_drinks : Store :=
  {| drinks := <[ 2 := creme_row ]> {[ 1 := water_row ]}; next_id := 3;
     writable := true; calls := [] |}.
(** * The proofs *)

(** ** The JSON round trip *)

(** Arithmetic with quotients and remainders. *)
Ltac euclid := zify; Z.to_euclidean_division_equations; lia.

Section Strings.
Local Open Scope char_scope.
Local Open Scope N_scope.

Lemma hex_value_digit d : d < 16 -> hex_value (hex_digit d) = Some d.
Proof.
  intros H.
  destruct d as [ | [[[[p|p|]|[p|p|]|]|[[p|p|]|[p|p|]|]|]|[[[p|p|]|[p|p|]|]|[[p|p|]|[p|p|]|]|]|] ];
    try reflexivity; exfalso; lia.
Qed.

(** [_decode_uXXXX] reads what [{0:04x}] printed. *)
Lemma decode_hex4_hex4 n :
  n < 65536 ->
  decode_hex4 (hex_digit (n / 4096 mod 16)) (hex_digit (n / 256 mod 16))
              (hex_digit (n / 16 mod 16)) (hex_digit (n mod 16)) = Some n.
Proof.
  intros H. unfold decode_hex4.
  rewrite !hex_value_digit by (apply N.mod_lt; discriminate).
  f_equal. euclid.
Qed.

(** The scanner at a [\uxxxx] escape. *)
Lemma scanstring_unicode h1 h2 h3 h4 r2 u :
  decode_hex4 h1 h2 h3 h4 = Some u ->
  scanstring ("\" :: "u" :: h1 :: h2 :: h3 :: h4 :: r2) =
  if high_surrogate u
  then match low_half r2 with
       | None => None
       | Some None => cons_chars (utf8 u) (scanstring r2)
       | Some (Some (u2, r5)) => cons_chars (utf8 (join_surrogates u u2)) (scanstring r5)
       end
  else cons_chars (utf8 u) (scanstring r2).
Proof.
  intros Hu.
  change (scanstring ("\" :: "u" :: h1 :: h2 :: h3 :: h4 :: r2))
    with (match decode_hex4 h1 h2 h3 h4 with
          | Some u =>
              if high_surrogate u then
                match r2 with
                | b :: r3 =>
                    match r3 with
                    | v :: r4 =>
                        if ((N_of_ascii b =? 92) && (N_of_ascii v =? 117))%N then
                          match r4 with
                          | l1 :: l2 :: l3 :: l4 :: r5 =>
                              match decode_hex4 l1 l2 l3 l4 with
                              | Some u2 =>
                                  if low_surrogate u2
                                  then cons_chars (utf8 (join_surrogates u u2))
                                         (scanstring r5)
                                  else cons_chars (utf8 u) (scanstring r2)
                              | None => None
                              end
                          | _ => None
                          end
                        else cons_chars (utf8 u) (scanstring r2)
                    | [] => cons_chars (utf8 u) (scanstring r2)
                    end
                | [] => cons_chars (utf8 u) (scanstring r2)
                end
              else cons_chars (utf8 u) (scanstring r2)
          | None => None
          end).
  rewrite Hu. destruct (high_surrogate u); [ | reflexivity ].
  destruct r2 as [ | b [ | v r4 ] ]; try reflexivity.
  unfold low_half.
  destruct ((N_of_ascii b =? 92) && (N_of_ascii v =? 117)); [ | reflexivity ].
  destruct r4 as [ | l1 [ | l2 [ | l3 [ | l4 r5 ] ] ] ]; try reflexivity.
  destruct (decode_hex4 l1 l2 l3 l4) as [u2 | ]; [ | reflexivity ].
  now destruct (low_surrogate u2).
Qed.

(** Case analysis on a code point of ASCII through its character. *)
Lemma below_128 (P : N -> Prop) :
  (forall c : ascii, N_of_ascii c < 128 -> P (N_of_ascii c)) ->
  forall n, n < 128 -> P n.
Proof.
  intros H n Hn. rewrite <- (N_ascii_embedding n) by lia.
  apply H. rewrite N_ascii_embedding; lia.
Qed.

Lemma scanstring_escape_ascii n r :
  n < 128 ->
  scanstring (escape_point n ++ r) = cons_char (ascii_of_N n) (scanstring r).
Proof.
  revert n. apply (below_128 (fun n => scanstring (escape_point n ++ r)
                                       = cons_char (ascii_of_N n) (scanstring r))).
  intros c Hc. rewrite ascii_N_embedding.
  destruct c as [[] [] [] [] [] [] [] []];
    try reflexivity; exfalso; revert Hc; vm_compute; discriminate.
Qed.


Lemma escape_point_unicode n :
  127 <= n -> n < 65536 -> escape_point n = "\" :: "u" :: hex4 n.
Proof.
  intros Hlo Hhi. unfold escape_point.
  repeat match goal with
         | |- context [N.eqb n ?k] => rewrite (proj2 (N.eqb_neq n k)) by lia
         end.
  rewrite (proj2 (N.ltb_lt 126 n)) by lia. rewrite orb_true_r.
  now rewrite (proj2 (N.ltb_lt n 65536)) by lia.
Qed.

Lemma escape_point_pair n :
  65536 <= n ->
  escape_point n
  = "\" :: "u" :: hex4 (55296 + (n - 65536) / 1024)
    ++ "\" :: "u" :: hex4 (56320 + (n - 65536) mod 1024).
Proof.
  intros Hlo. unfold escape_point.
  repeat match goal with
         | |- context [N.eqb n ?k] => rewrite (proj2 (N.eqb_neq n k)) by lia
         end.
  rewrite (proj2 (N.ltb_lt 126 n)) by lia. rewrite orb_true_r.
  now rewrite (proj2 (N.ltb_ge n 65536)) by lia.
Qed.

(** The two halves of the pair [json.dumps] prints for a code point from
    65536 on. *)
Lemma surrogates_of_point n :
  65536 <= n -> n < 1114112 ->
  let h := 55296 + (n - 65536) / 1024 in
  let l := 56320 + (n - 65536) mod 1024 in
  h < 65536 /\ l < 65536 /\ high_surrogate h = true /\ low_surrogate h = false /\
  low_surrogate l = true /\ join_surrogates h l = n.
Proof.
  intros Hlo Hhi h l. unfold high_surrogate, low_surrogate, join_surrogates.
  assert (Hh : 55296 <= h <= 56319) by (subst h; euclid).
  assert (Hl : 56320 <= l <= 57343) by (subst l; euclid).
  repeat split; try lia.
  - apply andb_true_iff. split; [ apply N.leb_le | apply N.leb_le ]; lia.
  - apply andb_false_iff. left. apply N.leb_gt. lia.
  - apply andb_true_iff. split; [ apply N.leb_le | apply N.leb_le ]; lia.
  - subst h l. euclid.
Qed.

Lemma low_half_quote rest : low_half ("034" :: rest) = Some None.
Proof. now destruct rest. Qed.

(** No low surrogate is read at the head of what [json.dumps] prints
    for a code point that is none. *)
Lemma low_half_escape_point n tail :
  n < 1114112 -> low_surrogate n = false ->
  low_half (escape_point n ++ tail) = Some None.
Proof.
  intros Hn Hlow.
  destruct (N.lt_ge_cases n 128) as [Hascii | Hge].
  - clear Hn Hlow. revert n Hascii.
    apply (below_128 (fun n => low_half (escape_point n ++ tail) = Some None)).
    intros c Hc.
    destruct tail as [ | t tail ];
      destruct c as [[] [] [] [] [] [] [] []];
      try reflexivity; exfalso; revert Hc; vm_compute; discriminate.
  - destruct (N.lt_ge_cases n 65536) as [Hbmp | Hpair].
    + rewrite escape_point_unicode by lia. unfold hex4. cbn [app low_half].
      change (N_of_ascii "\" =? 92) with true. change (N_of_ascii "u" =? 117) with true.
      cbn [andb]. rewrite decode_hex4_hex4 by exact Hbmp. now rewrite Hlow.
    + rewrite escape_point_pair by exact Hpair. unfold hex4 at 1. cbn [app low_half].
      change (N_of_ascii "\" =? 92) with true. change (N_of_ascii "u" =? 117) with true.
      cbn [andb].
      destruct (surrogates_of_point n Hpair Hn) as (Hh & _ & _ & Hnl & _).
      rewrite decode_hex4_hex4 by exact Hh. now rewrite Hnl.
Qed.

Lemma utf8_ascii n : n < 128 -> utf8 n = [ascii_of_N n].
Proof. intros H. unfold utf8. now rewrite (proj2 (N.ltb_lt n 128)). Qed.

(** One code point of a string: the scanner undoes the escape. *)
Lemma scanstring_escape_point n tail :
  n < 1114112 ->
  (high_surrogate n = true -> low_half tail = Some None) ->
  scanstring (escape_point n ++ tail) = cons_chars (utf8 n) (scanstring tail).
Proof.
  intros Hn Htail.
  destruct (N.lt_ge_cases n 128) as [Hascii | Hge].
  - rewrite scanstring_escape_ascii, utf8_ascii by exact Hascii. reflexivity.
  - destruct (N.lt_ge_cases n 65536) as [Hbmp | Hpair].
    + rewrite escape_point_unicode by lia. unfold hex4. cbn [app].
      rewrite (scanstring_unicode _ _ _ _ _ n) by now apply decode_hex4_hex4.
      destruct (high_surrogate n); [ | reflexivity ].
      now rewrite Htail.
    + rewrite escape_point_pair by exact Hpair. unfold hex4 at 1. cbn [app].
      destruct (surrogates_of_point n Hpair Hn) as (Hh & Hl & Hhigh & _ & Hlow & Hjoin).
      rewrite (scanstring_unicode _ _ _ _ _ (55296 + (n - 65536) / 1024))
        by now apply decode_hex4_hex4.
      rewrite Hhigh. unfold hex4. cbn [app low_half].
      change (N_of_ascii "\" =? 92) with true. change (N_of_ascii "u" =? 117) with true.
      cbn [andb]. rewrite decode_hex4_hex4 by exact Hl.
      now rewrite Hlow, Hjoin.
Qed.

Lemma cons_chars_some cs s r : cons_chars cs (Some (s, r)) = Some (prepend cs s, r).
Proof.
  induction cs as [ | c cs IH ]; [ reflexivity | ].
  cbn [cons_chars prepend]. now rewrite IH.
Qed.

(** The escapes of a list of code points are read back as its [str]. *)
Lemma scanstring_escape_points ns rest :
  Forall (fun n => n < 1114112) ns ->
  joined_pairs ns = false ->
  scanstring (escape_points ns ++ "034" :: rest) = Some (encode_points ns, rest).
Proof.
  induction 1 as [ | n ns Hn Hns IH ]; intros Hpairs; [ reflexivity | ].
  cbn [escape_points encode_points]. rewrite <- app_assoc.
  rewrite scanstring_escape_point; [ | exact Hn | ].
  - rewrite IH; [ apply cons_chars_some | ].
    cbn [joined_pairs] in Hpairs. destruct ns; [ reflexivity | ].
    now apply orb_false_iff in Hpairs.
  - intros Hhigh. destruct ns as [ | n' ns ]; [ apply low_half_quote | ].
    cbn [escape_points]. rewrite <- app_assoc.
    apply low_half_escape_point; [ now inversion Hns | ].
    cbn [joined_pairs] in Hpairs. apply orb_false_iff in Hpairs as [Hpair _].
    now rewrite Hhigh in Hpair.
Qed.

(** Every code point of a [string] is below 1114112. *)
Lemma code_points_bound s : Forall (fun n => n < 1114112) (code_points s).
Proof.
  remember (String.length s) as k eqn:Hk. revert s Hk.
  induction k as [k IH] using lt_wf_ind. intros s ->.
  destruct s as [ | c1 s1 ]; [ constructor | ].
  assert (Halone : Forall (fun n => n < 1114112) (N_of_ascii c1 :: code_points s1)).
  { constructor; [ pose proof (N_ascii_bounded c1); lia | ].
    apply (IH (String.length s1)); [ cbn; lia | reflexivity ]. }
  cbn [code_points]. cbv zeta.
  destruct (N_of_ascii c1 <? 194); [ exact Halone | ].
  destruct s1 as [ | c2 s2 ]; [ exact Halone | ].
  pose proof (N_ascii_bounded c1). pose proof (N_ascii_bounded c2).
  destruct (N_of_ascii c1 <? 224).
  { destruct (continuation (N_of_ascii c2)); [ | exact Halone ].
    constructor; [ lia | ]. apply (IH (String.length s2)); [ cbn; lia | reflexivity ]. }
  destruct s2 as [ | c3 s3 ]; [ exact Halone | ].
  pose proof (N_ascii_bounded c3).
  destruct (N_of_ascii c1 <? 240).
  { destruct (_ && _); [ | exact Halone ].
    constructor; [ lia | ]. apply (IH (String.length s3)); [ cbn; lia | reflexivity ]. }
  destruct s3 as [ | c4 s4 ]; [ exact Halone | ].
  destruct (_ && _) eqn:E; [ | exact Halone ].
  constructor; [ | apply (IH (String.length s4)); [ cbn; lia | reflexivity ] ].
  apply andb_true_iff in E as [_ E]. now apply N.ltb_lt in E.
Qed.

(** A [str] is read back from what [json.dumps] prints between the
    quotes. *)
Lemma scanstring_escape_chars s rest :
  str_ok s = true ->
  scanstring (escape_chars s ++ "034" :: rest) = Some (s, rest).
Proof.
  unfold str_ok, escape_chars. intros H. apply andb_true_iff in H as [Hs Hpairs].
  apply String.eqb_eq in Hs. apply negb_true_iff in Hpairs.
  rewrite scanstring_escape_points; [ now rewrite Hs | apply code_points_bound | exact Hpairs ].
Qed.

End Strings.

Section Numbers.
Local Open Scope char_scope.

Lemma at_delim_cases rest :
  at_delim rest = true ->
  rest = [] \/ exists c r, rest = c :: r /\ (c = "," \/ c = "]" \/ c = "}").
Proof.
  destruct rest as [ | c r ]; [ now left | ].
  simpl. intros H. right. exists c, r. split; [ reflexivity | ].
  destruct (Ascii.eqb_spec c ","); [ now left | ].
  destruct (Ascii.eqb_spec c "]"); [ now right; left | ].
  destruct (Ascii.eqb_spec c "}"); [ now right; right | discriminate ].
Qed.

Lemma number_end_delim rest : at_delim rest = true -> number_end rest = true.
Proof.
  intros H.
  destruct (at_delim_cases rest H) as [-> | (c & r & -> & [-> | [-> | ->]])];
    reflexivity.
Qed.

Lemma number_end_digit rest :
  number_end rest = true ->
  match rest with [] => true | c :: _ => negb (is_digit c) end = true.
Proof.
  destruct rest as [ | c r ]; [ reflexivity | ].
  cbn [number_end]. intros H. now apply andb_true_iff in H.
Qed.

Lemma scan_digits_chars u rest :
  match rest with [] => true | c :: _ => negb (is_digit c) end = true ->
  scan_digits (chars_of_uint u ++ rest) = (u, rest).
Proof.
  intros Hrest.
  induction u as [ | u IH | u IH | u IH | u IH | u IH | u IH | u IH | u IH | u IH | u IH ];
    try (cbn [chars_of_uint app scan_digits]; cbn; rewrite IH; reflexivity).
  cbn [chars_of_uint app]. destruct rest as [ | c r ]; [ reflexivity | ].
  cbn [scan_digits]. unfold is_digit in Hrest.
  destruct (digit_of_ascii c); [ discriminate | reflexivity ].
Qed.

(** The decimal digits of a positive number do not start with a zero. *)
Lemma pos_to_uint_no_leading_zero p u : Pos.to_uint p <> D0 u.
Proof.
  intros E.
  assert (Hn : unorm (Pos.to_uint p) = Pos.to_uint p).
  { change (Pos.to_uint p) with (N.to_uint (N.pos p)) at 2.
    rewrite <- (DecimalPos.Unsigned.of_to p). symmetry. apply DecimalPos.Unsigned.to_of. }
  rewrite E in Hn. unfold unorm in Hn. rewrite nzhead_D0 in Hn.
  destruct (nzhead u) eqn:Hz; try discriminate.
  - injection Hn as <-. now apply (DecimalPos.Unsigned.to_uint_nonzero p).
  - now apply (nzhead_nonzero u u0).
Qed.

Lemma integer_digits_pos p : integer_digits (Pos.to_uint p) = true.
Proof.
  pose proof (DecimalPos.Unsigned.to_uint_nonnil p) as Hnil.
  pose proof (pos_to_uint_no_leading_zero p) as Hz.
  destruct (Pos.to_uint p); try reflexivity; [ congruence | now destruct (Hz u) ].
Qed.

Lemma integer_some_digits u : integer_digits u = true -> some_digits u = true.
Proof. now destruct u. Qed.

(** The integer part is read back up to a character that is no digit. *)
Lemma scan_integer_chars u rest :
  integer_digits u = true ->
  match rest with [] => true | c :: _ => negb (is_digit c) end = true ->
  scan_integer (chars_of_uint u ++ rest) = Some (u, rest).
Proof.
  intros Hu Hrest. pose proof (scan_digits_chars u rest Hrest) as Hs.
  destruct u as [ | u | u | u | u | u | u | u | u | u | u ];
    [ discriminate | destruct u; [ reflexivity | discriminate .. ] | .. ];
    cbn [chars_of_uint app] in *; unfold scan_integer;
    cbn [Ascii.eqb Bool.eqb is_digit digit_of_ascii N_of_ascii N_of_digits];
    cbn -[scan_digits]; now rewrite Hs.
Qed.

Lemma scan_fraction_print f rest :
  number_end rest = true ->
  scan_fraction (print_fraction f ++ rest) = (f, rest).
Proof.
  intros Hrest. destruct f as [ | f | f | f | f | f | f | f | f | f | f ].
  1: { cbn [print_fraction app]. destruct rest as [ | c r ]; [ reflexivity | ].
       cbn [number_end] in Hrest. apply andb_true_iff in Hrest as [_ Hc].
       apply negb_true_iff in Hc. unfold scan_fraction. now rewrite Hc. }
  all: unfold print_fraction; cbn [app]; unfold scan_fraction;
    change (Ascii.eqb "." ".") with true; cbv iota;
    now rewrite scan_digits_chars by now apply number_end_digit.
Qed.

Lemma scan_exponent_print e rest :
  some_digits (unsigned e) = true ->
  match rest with [] => true | c :: _ => negb (is_digit c) end = true ->
  scan_exponent (print_exponent e ++ rest) = Some (e, rest).
Proof.
  intros He Hrest.
  destruct e as [u | u]; cbn [print_exponent app unsigned] in *; unfold scan_exponent;
    change (Ascii.eqb "e" "e") with true; cbn [orb]; cbv iota;
    cbn [Ascii.eqb Bool.eqb]; cbv iota;
    rewrite scan_digits_chars by exact Hrest;
    now destruct u.
Qed.

Lemma scan_exponent_delim rest : at_delim rest = true -> scan_exponent rest = None.
Proof.
  intros H.
  destruct (at_delim_cases rest H) as [-> | (c & r & -> & [-> | [-> | ->]])];
    reflexivity.
Qed.

Lemma number_end_exponent e rest : number_end (print_exponent e ++ rest) = true.
Proof. now destruct e. Qed.

Lemma number_end_fraction f rest :
  number_end rest = true ->
  match print_fraction f ++ rest with [] => true | c :: _ => negb (is_digit c) end = true.
Proof.
  intros H. destruct f; try reflexivity. now apply number_end_digit.
Qed.

(** The digits of an [int] are read back as the [int]. *)
Lemma parse_unsigned_int sign u rest :
  integer_digits u = true ->
  at_delim rest = true ->
  parse_unsigned sign (chars_of_uint u ++ rest)
  = Some (JNum (match sign u with
                | Pos _ => Z.of_N (N.of_uint u)
                | Neg _ => - Z.of_N (N.of_uint u)
                end), rest).
Proof.
  intros Hu Hrest. unfold parse_unsigned.
  rewrite scan_integer_chars
    by (try exact Hu; now apply number_end_digit, number_end_delim).
  pose proof (scan_fraction_print Nil rest (number_end_delim rest Hrest)) as Hf.
  cbn [print_fraction app] in Hf. rewrite Hf.
  now rewrite scan_exponent_delim.
Qed.

(** The digits of a float literal are read back as the float. *)
Lemma parse_unsigned_float sign u f rest :
  integer_digits u = true ->
  some_digits f = true ->
  at_delim rest = true ->
  parse_unsigned sign (chars_of_uint u ++ print_fraction f ++ rest)
  = Some (JFloat (Finite (Decimal (sign u) f)), rest).
Proof.
  intros Hu Hf Hrest. unfold parse_unsigned.
  rewrite scan_integer_chars
    by (try exact Hu; now apply number_end_fraction, number_end_delim).
  rewrite scan_fraction_print by now apply number_end_delim.
  rewrite scan_exponent_delim by exact Hrest. now destruct f.
Qed.

Lemma parse_unsigned_exponent sign u f e rest :
  integer_digits u = true ->
  some_digits (unsigned e) = true ->
  at_delim rest = true ->
  parse_unsigned sign (chars_of_uint u ++ print_fraction f ++ print_exponent e ++ rest)
  = Some (JFloat (Finite (DecimalExp (sign u) f e)), rest).
Proof.
  intros Hu He Hrest. unfold parse_unsigned.
  rewrite scan_integer_chars
    by (try exact Hu; apply number_end_fraction, number_end_exponent).
  rewrite scan_fraction_print by apply number_end_exponent.
  now rewrite scan_exponent_print
    by (try exact He; now apply number_end_digit, number_end_delim).
Qed.

(** Digits start no sign. *)
Lemma parse_number_digits u t :
  some_digits u = true ->
  parse_number (chars_of_uint u ++ t) = parse_unsigned Pos (chars_of_uint u ++ t).
Proof. now destruct u. Qed.

Lemma parse_number_print_int z rest :
  at_delim rest = true ->
  parse_number (print_int z ++ rest) = Some (JNum z, rest).
Proof.
  intros Hrest. destruct z as [ | p | p ]; cbn [print_int].
  - apply (parse_unsigned_int Pos (D0 Nil) rest); [ reflexivity | exact Hrest ].
  - rewrite parse_number_digits by apply integer_some_digits, integer_digits_pos.
    rewrite parse_unsigned_int by (try apply integer_digits_pos; exact Hrest).
    change N.of_uint with Pos.of_uint. now rewrite DecimalPos.Unsigned.of_to.
  - cbn [app parse_number]. change (Ascii.eqb "-" "-") with true. cbv iota.
    rewrite parse_unsigned_int by (try apply integer_digits_pos; exact Hrest).
    change N.of_uint with Pos.of_uint. now rewrite DecimalPos.Unsigned.of_to.
Qed.

Lemma parse_number_print_float d rest :
  float_ok (Finite d) = true ->
  at_delim rest = true ->
  parse_number (print_float (Finite d) ++ rest) = Some (JFloat (Finite d), rest).
Proof.
  intros Hok Hrest.
  destruct d as [[u | u] f | [u | u] f e]; cbn [float_ok unsigned] in Hok;
    apply andb_true_iff in Hok as [Hu Hd];
    cbn [print_float print_signed]; rewrite <- ?app_assoc.
  - rewrite parse_number_digits by now apply integer_some_digits.
    now apply parse_unsigned_float.
  - cbn [app parse_number]. change (Ascii.eqb "-" "-") with true. cbv iota.
    now apply parse_unsigned_float.
  - rewrite parse_number_digits by now apply integer_some_digits.
    now apply parse_unsigned_exponent.
  - cbn [app parse_number]. change (Ascii.eqb "-" "-") with true. cbv iota.
    now apply parse_unsigned_exponent.
Qed.

(** A number and the three constants start with a character that opens
    no string, no dict, no list and no name. *)
Lemma parse_value_number_start fuel c s :
  number_start c = true ->
  parse_value (S fuel) (c :: s) = parse_number_or_constant (c :: s).
Proof.
  destruct c as [[] [] [] [] [] [] [] []]; try discriminate; reflexivity.
Qed.

Lemma chars_of_uint_head u t :
  some_digits u = true ->
  exists c r, chars_of_uint u ++ t = c :: r /\ is_digit c = true.
Proof. destruct u; try discriminate; intros _; eexists _, _; split; reflexivity. Qed.

(** A printed number starts with a digit or the sign. *)
Lemma print_int_head z t :
  exists c r, print_int z ++ t = c :: r /\ number_start c = true.
Proof.
  destruct z as [ | p | p ]; cbn [print_int].
  - eexists _, _; split; reflexivity.
  - destruct (chars_of_uint_head (Pos.to_uint p) t) as (c & r & -> & Hc);
      [ apply integer_some_digits, integer_digits_pos | ].
    exists c, r. split; [ reflexivity | ]. unfold number_start. now rewrite Hc.
  - eexists _, _; split; reflexivity.
Qed.

Lemma print_signed_head i t :
  some_digits (unsigned i) = true ->
  exists c r, print_signed i ++ t = c :: r /\ number_start c = true.
Proof.
  destruct i as [u | u]; cbn [unsigned print_signed]; intros Hu.
  - destruct (chars_of_uint_head u t Hu) as (c & r & -> & Hc).
    exists c, r. split; [ reflexivity | ]. unfold number_start. now rewrite Hc.
  - eexists _, _; split; reflexivity.
Qed.

Lemma print_float_head x t :
  float_ok x = true ->
  exists c r, print_float x ++ t = c :: r /\ number_start c = true.
Proof.
  intros Hok.
  destruct x as [[i f | i f e] | [ | ] | ];
    try (eexists _, _; split; reflexivity);
    cbn [float_ok] in Hok; apply andb_true_iff in Hok as [Hu _];
    cbn [print_float]; rewrite <- app_assoc;
    now apply print_signed_head, integer_some_digits.
Qed.

Lemma parse_value_int fuel z rest :
  at_delim rest = true ->
  parse_value (S fuel) (print_int z ++ rest) = Some (JNum z, rest).
Proof.
  intros Hrest. pose proof (parse_number_print_int z rest Hrest) as Hn.
  destruct (print_int_head z rest) as (c & r & E & Hc). rewrite E in *.
  rewrite parse_value_number_start by exact Hc.
  unfold parse_number_or_constant. now rewrite Hn.
Qed.

Lemma parse_value_float fuel x rest :
  float_ok x = true ->
  at_delim rest = true ->
  parse_value (S fuel) (print_float x ++ rest) = Some (JFloat x, rest).
Proof.
  intros Hok Hrest. destruct x as [d | [ | ] | ]; try reflexivity.
  pose proof (parse_number_print_float d rest Hok Hrest) as Hn.
  destruct (print_float_head (Finite d) rest Hok) as (c & r & E & Hc). rewrite E in *.
  rewrite parse_value_number_start by exact Hc.
  unfold parse_number_or_constant. now rewrite Hn.
Qed.

End Numbers.

Section RoundTrip.
Local Open Scope char_scope.

(** Induction over [json] that reaches inside arrays and dicts. *)
Lemma json_nested_ind (P : json -> Prop) :
  P JNull ->
  (forall b, P (JBool b)) ->
  (forall z, P (JNum z)) ->
  (forall s, P (JStr s)) ->
  (forall l, Forall P l -> P (JArr l)) ->
  (forall m, Forall (fun kv => P (snd kv)) m -> P (JObj m)) ->
  (forall x, P (JFloat x)) ->
  forall v, P v.
Proof.
  intros Hnull Hbool Hnum Hstr Harr Hobj Hfloat.
  fix IH 1. intros [ | b | z | s | l | m | x ].
  - exact Hnull.
  - apply Hbool.
  - apply Hnum.
  - apply Hstr.
  - apply Harr. induction l as [ | y l IHl ]; constructor; [ apply IH | exact IHl ].
  - apply Hobj. induction m as [ | [k y] m IHm ]; constructor; [ apply IH | exact IHm ].
  - apply Hfloat.
Qed.

Lemma parse_value_S fuel s :
  parse_value (S fuel) s =
  match s with
  | [] => None
  | c :: r =>
      if Ascii.eqb c "034" then
        match scanstring r with
        | Some (str, r') => Some (JStr str, r')
        | None => None
        end
      else if Ascii.eqb c "{" then
        match skip_ws r with
        | [] => None
        | c1 :: r1 =>
            if Ascii.eqb c1 "}" then Some (JObj [], r1)
            else parse_members fuel [] (c1 :: r1)
        end
      else if Ascii.eqb c "[" then
        match skip_ws r with
        | [] => None
        | c1 :: r1 =>
            if Ascii.eqb c1 "]" then Some (JArr [], r1)
            else parse_items fuel [] (c1 :: r1)
        end
      else
        match strip_prefix lit_null s with
        | Some r' => Some (JNull, r')
        | None =>
        match strip_prefix lit_true s with
        | Some r' => Some (JBool true, r')
        | None =>
        match strip_prefix lit_false s with
        | Some r' => Some (JBool false, r')
        | None => parse_number_or_constant s
        end end end
  end.
Proof. reflexivity. Qed.

Lemma parse_items_S fuel acc s :
  parse_items (S fuel) acc s =
  match parse_value fuel s with
  | None => None
  | Some (v, r) =>
      match skip_ws r with
      | [] => None
      | c :: r' =>
          if Ascii.eqb c "]" then Some (JArr (acc ++ [v]), r')
          else if Ascii.eqb c ","
               then parse_items fuel (acc ++ [v]) (skip_ws r')
               else None
      end
  end.
Proof. reflexivity. Qed.

Lemma parse_members_S fuel acc s :
  parse_members (S fuel) acc s =
  match s with
  | [] => None
  | q :: r =>
      if negb (Ascii.eqb q "034") then None
      else
        match scanstring r with
        | None => None
        | Some (k, r1) =>
            match skip_ws r1 with
            | [] => None
            | c :: r2 =>
                if negb (Ascii.eqb c ":") then None
                else
                  match parse_value fuel (skip_ws r2) with
                  | None => None
                  | Some (v, r3) =>
                      match skip_ws r3 with
                      | [] => None
                      | c' :: r4 =>
                          if Ascii.eqb c' "}"
                          then Some (JObj (dict_set k v acc), r4)
                          else if Ascii.eqb c' ","
                               then parse_members fuel (dict_set k v acc) (skip_ws r4)
                               else None
                      end
                  end
            end
        end
  end.
Proof. reflexivity. Qed.

Lemma number_start_head c :
  number_start c = true ->
  is_ws c = false /\ Ascii.eqb c "]" = false /\ Ascii.eqb c "}" = false.
Proof.
  destruct c as [[] [] [] [] [] [] [] []]; try discriminate; now repeat split.
Qed.

(** A printed value starts with a character that is neither white space
    nor a closing bracket. *)
Lemma print_head v :
  wf_json v = true ->
  exists c t, print v = c :: t /\ is_ws c = false /\
              Ascii.eqb c "]" = false /\ Ascii.eqb c "}" = false.
Proof.
  intros Hwf.
  destruct v as [ | [] | z | s | l | m | x ];
    try (eexists _, _; repeat split; reflexivity); cbn [print].
  - destruct (print_int_head z []) as (c & r & E & Hc). rewrite app_nil_r in E.
    exists c, r. split; [ exact E | now apply number_start_head ].
  - destruct (print_float_head x [] Hwf) as (c & r & E & Hc). rewrite app_nil_r in E.
    exists c, r. split; [ exact E | now apply number_start_head ].
Qed.

Lemma skip_ws_print v r : wf_json v = true -> skip_ws (print v ++ r) = print v ++ r.
Proof.
  intros Hwf. destruct (print_head v Hwf) as (c & t & -> & Hws & _).
  cbn [app skip_ws]. now rewrite Hws.
Qed.

Lemma dict_set_fresh k v acc :
  existsb (String.eqb k) (map fst acc) = false ->
  dict_set k v acc = acc ++ [(k, v)].
Proof.
  induction acc as [ | [k' v'] acc IH ]; [ reflexivity | ].
  cbn [map fst existsb dict_set app]. intros H.
  apply orb_false_iff in H as [Hk H]. rewrite Hk, IH by exact H. reflexivity.
Qed.

Lemma distinct_keys_middle l1 k l2 :
  distinct_keys (l1 ++ k :: l2) = true ->
  existsb (String.eqb k) l1 = false /\ distinct_keys ((l1 ++ [k]) ++ l2) = true.
Proof.
  rewrite <- app_assoc. cbn [app]. intros H. split; [ | exact H ].
  induction l1 as [ | a l1 IH ]; [ reflexivity | ].
  cbn [app distinct_keys] in H. apply andb_true_iff in H as [Ha H].
  cbn [existsb]. rewrite (IH H), orb_false_r.
  apply negb_true_iff in Ha. rewrite existsb_app in Ha.
  apply orb_false_iff in Ha as [_ Ha]. cbn [existsb] in Ha.
  apply orb_false_iff in Ha as [Ha _]. now rewrite String.eqb_sym.
Qed.

Lemma skip_ws_join (l : list json) r :
  forallb wf_json l = true ->
  skip_ws (join_comma (map print l) ++ "]" :: r)
  = join_comma (map print l) ++ "]" :: r.
Proof.
  intros Hwf. destruct l as [ | x [ | y l ] ]; [ reflexivity | | ];
    cbn [forallb] in Hwf; apply andb_true_iff in Hwf as [Hx _].
  - now apply skip_ws_print.
  - cbn [map join_comma]. rewrite <- app_assoc. now apply skip_ws_print.
Qed.

Lemma parse_items_print l :
  Forall reads_back l ->
  l <> [] ->
  forallb wf_json l = true ->
  forall acc fuel rest,
    at_delim rest = true ->
    (List.length (join_comma (map print l)) + 1 < fuel)%nat ->
    parse_items fuel acc (join_comma (map print l) ++ "]" :: rest)
    = Some (JArr (acc ++ l), rest).
Proof.
  induction 1 as [ | x l Hx Hl IH ]; [ congruence | ].
  intros _ Hwf acc fuel rest Hrest Hfuel.
  cbn [forallb] in Hwf. apply andb_true_iff in Hwf as [Hwx Hwl].
  destruct fuel as [ | fuel ]; [ lia | ]. rewrite parse_items_S.
  destruct l as [ | y l ].
  - cbn [map join_comma] in *.
    rewrite (Hx Hwx fuel ("]" :: rest)) by (reflexivity || lia).
    reflexivity.
  - change (join_comma (map print (x :: y :: l)))
      with (print x ++ "," :: " " :: join_comma (map print (y :: l))) in *.
    rewrite length_app in Hfuel. cbn [List.length] in Hfuel.
    rewrite <- app_assoc. cbn [app].
    rewrite (Hx Hwx fuel) by (reflexivity || lia).
    change (skip_ws ("," :: " " :: ?t)) with ("," :: " " :: t).
    cbv iota. change (Ascii.eqb "," "]") with false.
    change (Ascii.eqb "," ",") with true. cbv iota.
    change (skip_ws (" " :: ?t)) with (skip_ws t).
    rewrite skip_ws_join, IH by (assumption || congruence || lia).
    now rewrite <- app_assoc.
Qed.

Lemma print_member_app k x t :
  print_member (k, x) ++ t
  = "034" :: escape_chars k ++ "034" :: ":" :: " " :: print x ++ t.
Proof.
  unfold print_member, print_string. cbn [fst snd app].
  now rewrite <- !app_assoc.
Qed.

Lemma skip_ws_members (m : list (string * json)) r :
  skip_ws (join_comma (map print_member m) ++ "}" :: r)
  = join_comma (map print_member m) ++ "}" :: r.
Proof.
  destruct m as [ | [k x] [ | kv m ] ]; reflexivity.
Qed.

Lemma parse_members_print m :
  Forall (fun kv => reads_back (snd kv)) m ->
  m <> [] ->
  forallb (fun kv => str_ok (fst kv) && wf_json (snd kv)) m = true ->
  forall acc fuel rest,
    distinct_keys (map fst (acc ++ m)) = true ->
    at_delim rest = true ->
    (List.length (join_comma (map print_member m)) + 1 < fuel)%nat ->
    parse_members fuel acc (join_comma (map print_member m) ++ "}" :: rest)
    = Some (JObj (acc ++ m), rest).
Proof.
  induction 1 as [ | [k x] m Hx Hm IH ]; [ congruence | ].
  intros _ Hwf acc fuel rest Hkeys Hrest Hfuel.
  cbn [forallb fst snd] in Hwf. apply andb_true_iff in Hwf as [Hwx Hwm].
  apply andb_true_iff in Hwx as [Hk Hwx].
  cbn [snd] in Hx.
  rewrite map_app in Hkeys. cbn [map fst] in Hkeys.
  apply distinct_keys_middle in Hkeys as [Hfresh Hkeys].
  destruct fuel as [ | fuel ]; [ lia | ]. rewrite parse_members_S.
  assert (Hlen : forall t, (List.length (print x) < List.length (print_member (k, x) ++ t))%nat).
  { intros t. rewrite print_member_app. cbn [List.length].
    rewrite !length_app. cbn [List.length]. rewrite length_app. lia. }
  destruct m as [ | kv m ].
  - cbn [map join_comma] in *. rewrite print_member_app.
    change (Ascii.eqb "034" "034") with true. cbn [negb]. cbv iota.
    rewrite scanstring_escape_chars by exact Hk.
    change (skip_ws (":" :: " " :: ?t)) with (":" :: " " :: t).
    cbv iota. change (Ascii.eqb ":" ":") with true. cbn [negb]. cbv iota.
    change (skip_ws (" " :: ?t)) with (skip_ws t).
    rewrite skip_ws_print by exact Hwx.
    specialize (Hlen []). rewrite app_nil_r in Hlen.
    rewrite (Hx Hwx fuel ("}" :: rest)) by (reflexivity || lia).
    change (skip_ws ("}" :: ?t)) with ("}" :: t). cbv iota.
    change (Ascii.eqb "}" "}") with true. cbv iota.
    now rewrite dict_set_fresh.
  - change (join_comma (map print_member ((k, x) :: kv :: m)))
      with (print_member (k, x) ++ "," :: " " :: join_comma (map print_member (kv :: m))) in *.
    rewrite <- app_assoc. rewrite print_member_app.
    change (Ascii.eqb "034" "034") with true. cbn [negb]. cbv iota.
    rewrite scanstring_escape_chars by exact Hk.
    change (skip_ws (":" :: " " :: ?t)) with (":" :: " " :: t).
    cbv iota. change (Ascii.eqb ":" ":") with true. cbn [negb]. cbv iota.
    change (skip_ws (" " :: ?t)) with (skip_ws t).
    rewrite skip_ws_print by exact Hwx.
    specialize (Hlen []). rewrite app_nil_r in Hlen.
    rewrite length_app in Hfuel. cbn [List.length] in Hfuel.
    cbn [app].
    rewrite (Hx Hwx fuel) by (reflexivity || lia).
    change (skip_ws ("," :: " " :: ?t)) with ("," :: " " :: t).
    cbv iota. change (Ascii.eqb "," "}") with false.
    change (Ascii.eqb "," ",") with true. cbv iota.
    change (skip_ws (" " :: ?t)) with (skip_ws t).
    rewrite skip_ws_members, dict_set_fresh by exact Hfresh.
    rewrite IH; [ now rewrite <- app_assoc | congruence | assumption | | assumption | lia ].
    now rewrite map_app, map_app.
Qed.

(** Every well-formed value is read back from its printed text. *)
Lemma parse_value_print v : reads_back v.
Proof.
  induction v as [ | b | z | s | l IH | m IH | x ] using json_nested_ind;
    intros Hwf fuel rest Hrest Hfuel;
    (destruct fuel as [ | fuel ]; [ lia | ]).
  - reflexivity.
  - destruct b; reflexivity.
  - now apply parse_value_int.
  - rewrite parse_value_S. cbn [print print_string app].
    change (Ascii.eqb "034" "034") with true. cbv iota.
    rewrite <- app_assoc. cbn [app]. now rewrite scanstring_escape_chars.
  - rewrite parse_value_S. cbn [print app] in *.
    change (Ascii.eqb "[" "034") with false. change (Ascii.eqb "[" "{") with false.
    change (Ascii.eqb "[" "[") with true. cbv iota.
    rewrite <- app_assoc. cbn [app]. cbn [wf_json] in Hwf.
    rewrite skip_ws_join by exact Hwf.
    destruct l as [ | x l ]; [ reflexivity | ].
    assert (Hwx : wf_json x = true).
    { cbn [forallb] in Hwf. now apply andb_true_iff in Hwf. }
    destruct (join_comma (map print (x :: l)) ++ "]" :: rest) as [ | c1 r1 ] eqn:E.
    { destruct l; cbn [map join_comma] in E;
        destruct (print_head x Hwx) as (c & t & Hp & _); rewrite Hp in E; discriminate E. }
    assert (Hc : Ascii.eqb c1 "]" = false).
    { destruct (print_head x Hwx) as (c & t & Hp & _ & Hb & _).
      destruct l; cbn [map join_comma] in E; rewrite Hp in E;
        injection E as <- _; exact Hb. }
    rewrite Hc, <- E.
    cbn [List.length] in Hfuel. rewrite length_app in Hfuel.
    cbn [List.length] in Hfuel.
    rewrite parse_items_print; [ reflexivity | assumption | congruence | exact Hwf
                               | assumption | lia ].
  - rewrite parse_value_S. cbn [print app] in *.
    change (Ascii.eqb "{" "034") with false. change (Ascii.eqb "{" "{") with true.
    cbv iota.
    change (map _ m) with (map print_member m) in *.
    rewrite <- app_assoc. cbn [app]. rewrite skip_ws_members.
    cbn [wf_json] in Hwf. apply andb_true_iff in Hwf as [Hkeys Hwf].
    destruct m as [ | [k x] m ]; [ reflexivity | ].
    destruct (join_comma (map print_member ((k, x) :: m)) ++ "}" :: rest)
      as [ | c1 r1 ] eqn:E.
    { destruct m; discriminate E. }
    assert (Hc : Ascii.eqb c1 "}" = false).
    { destruct m; injection E as <- _; reflexivity. }
    rewrite Hc, <- E.
    cbn [List.length] in Hfuel. rewrite length_app in Hfuel.
    cbn [List.length] in Hfuel.
    rewrite parse_members_print; [ reflexivity | assumption | congruence | exact Hwf
                                 | exact Hkeys | assumption | lia ].
  - now apply parse_value_float.
Qed.

End RoundTrip.

(** [loads] undoes [dumps] on every well-formed value. *)
Lemma loads_dumps v : wf_json v = true -> loads (dumps v) = Some v.
Proof.
  intros Hwf. unfold loads, dumps.
  rewrite list_ascii_of_string_of_list_ascii.
  rewrite <- (app_nil_r (print v)) at 1 2. rewrite skip_ws_print, app_nil_r by exact Hwf.
  rewrite <- (app_nil_r (print v)) at 2.
  rewrite (parse_value_print v Hwf) by (reflexivity || lia).
  reflexivity.
Qed.
(** ** The permission guard *)

Section Guard.

Variable verify_decode_jwt : string -> Verdict.

(** An authorized request reaches the handler. *)
Lemma requires_auth_authorized permission req :
  authorized verify_decode_jwt permission req = true ->
  exists payload, forall (A : Type) (f : Claims -> M A),
    requires_auth verify_decode_jwt permission req f = f payload.
Proof.
  unfold authorized, requires_auth. intros H.
  destruct (get_token_auth_header req) as [e | token]; [ discriminate | ].
  destruct (verify_decode_jwt token) as [payload | why]; [ | discriminate ].
  exists payload. intros A f.
  destruct (check_permissions permission payload); [ discriminate | reflexivity ].
Qed.

(** Any other request raises an [AuthError] before the handler runs; its
    status is 401 when the Token Verifier failed, and 400 or 403 when the
    Permission Checker did. *)
Lemma requires_auth_denied permission req :
  authorized verify_decode_jwt permission req = false ->
  exists e, (forall (A : Type) (f : Claims -> M A),
                requires_auth verify_decode_jwt permission req f
                = raise (RaisedAuthError e)) /\
            (if token_rejected verify_decode_jwt req
             then status_code e = 401
             else status_code e = 400 \/ status_code e = 403).
Proof.
  unfold authorized, requires_auth, token_rejected, get_token_auth_header. intros H.
  destruct (authorization req) as [h | ].
  - destruct (bearer_token h) as [token | ].
    + destruct (verify_decode_jwt token) as [payload | why].
      * unfold check_permissions in *.
        destruct (permissions payload) as [ps | ].
        -- destruct (existsb (String.eqb permission) ps); [ discriminate | ].
           eexists; split; [ reflexivity | right; reflexivity ].
        -- eexists; split; [ reflexivity | left; reflexivity ].
      * eexists; split; reflexivity.
    + eexists; split; reflexivity.
  - eexists; split; reflexivity.
Qed.

Lemma token_rejected_not_authorized permission req :
  token_rejected verify_decode_jwt req = true ->
  authorized verify_decode_jwt permission req = false.
Proof.
  unfold token_rejected, authorized.
  destruct (get_token_auth_header req) as [e | token]; [ reflexivity | ].
  destruct (verify_decode_jwt token); [ discriminate | reflexivity ].
Qed.

Lemma missing_header_rejected req :
  authorization req = None -> token_rejected verify_decode_jwt req = true.
Proof.
  unfold token_rejected, get_token_auth_header. now intros ->.
Qed.

(** The permission a gated route requires. *)
Lemma view_gated route req :
  gated route = true ->
  exists permission (f : Claims -> M Response),
    view verify_decode_jwt route req
    = requires_auth verify_decode_jwt permission req f.
Proof.
  destruct route; [ discriminate | intros _ .. ]; eexists _, _; reflexivity.
Qed.

(** C2.  A request to a gated route ([GET /drinks-detail], [POST /drinks],
    [PATCH /drinks/<id>], [DELETE /drinks/<id>]) without an
    [Authorization] header, or whose token the Token Verifier rejects, is
    answered 401 with the error envelope of [auth_error], and the database
    after the request is the database before it: no operation of the
    Drink Store was called (the log of calls gained no entry). *)
Theorem gated_route_rejects_unverified route req st :
  gated route = true ->
  authorization req = None \/ token_rejected verify_decode_jwt req = true ->
  exists message,
    serve verify_decode_jwt route req st
    = (jsonify (error_body 401 message) 401, st) /\
    calls (serve verify_decode_jwt route req st).2 = calls st.
Proof.
  intros Hg Hrej.
  assert (Hr : token_rejected verify_decode_jwt req = true).
  { destruct Hrej as [Hnone | Hr]; [ now apply missing_header_rejected | exact Hr ]. }
  destruct (view_gated route req Hg) as (permission & f & Hview).
  destruct (requires_auth_denied permission req
              (token_rejected_not_authorized permission req Hr)) as (e & He & Hs).
  rewrite Hr in Hs. exists (error_description e).
  unfold serve. rewrite Hview, He. cbn. unfold auth_error. rewrite Hs.
  split; reflexivity.
Qed.

End Guard.

(** A request without a header to [DELETE /drinks/1]. *)
Lemma gated_route_rejects_unverified_witness :
  exists message,
    serve example_jwt (DeleteDrinks 1) (anonymous_request JNull) one_drink
    = (jsonify (error_body 401 message) 401, one_drink) /\
    calls (serve example_jwt (DeleteDrinks 1) (anonymous_request JNull) one_drink).2
    = calls one_drink.
Proof.
  apply (gated_route_rejects_unverified example_jwt (DeleteDrinks 1)
           (anonymous_request JNull) one_drink).
  - reflexivity.
  - left. reflexivity.
Defined.

(** ** What each handler computes *)

(** Unfolds the steps of the handler monad and the store operations. *)
Ltac run_monad :=
  repeat (unfold bind, ret, raise, abort, record_call, commit, query_one_or_none,
            query_all, Drink_insert, Drink_update, Drink_delete, get_json, logged;
          cbv beta iota;
          cbn [drinks next_id writable calls title recipe fst snd]).

Section Handlers.

Variable verify_decode_jwt : string -> Verdict.

Lemma supplied_truthy k m v : supplied k m = Some v -> truthy v = true.
Proof.
  unfold supplied. destruct (dict_get k m) as [v' | ]; [ | discriminate ].
  destruct (truthy v') eqn:E; [ | discriminate ]. now intros [= <-].
Qed.

Lemma supplied_get k m v : supplied k m = Some v -> dict_get k m = Some v.
Proof.
  unfold supplied. destruct (dict_get k m) as [v' | ]; [ | discriminate ].
  destruct (truthy v'); [ | discriminate ]. now intros [= <-].
Qed.

(** [body.get(k)] is truthy exactly when the dict supplies the field. *)
Lemma get_truthy k m :
  truthy (match dict_get k m with Some v => v | None => JNull end)
  = match supplied k m with Some _ => true | None => false end.
Proof.
  unfold supplied. destruct (dict_get k m) as [v | ]; [ | reflexivity ].
  now destruct (truthy v).
Qed.

(** [PATCH /drinks/<id>] on an authorized request: the row is looked up,
    then the body is read, then the row is tested. *)
Lemma patch_drinks_run req st i :
  authorized verify_decode_jwt "patch:drinks" req = true ->
  view verify_decode_jwt (PatchDrinks i) req st =
  match body req with
  | Undecodable why => (inl (HTTPException (fault_status why)), logged [OpGet i] st)
  | Decoded j =>
      match drinks st !! i with
      | None => (inl (HTTPException 404), logged [OpGet i] st)
      | Some d =>
          match j with
          | JObj m =>
              if writable st
              then (match long i (patched d m) with
                    | Some long_form =>
                        inr {| status := 200;
                               payload := Json (JObj [("success", JBool true);
                                                      ("drinks", JArr [long_form])]) |}
                    | None => inl (PythonError "JSONDecodeError")
                    end,
                    {| drinks := <[i := patched d m]> (drinks st);
                       next_id := next_id st; writable := writable st;
                       calls := calls st ++ [OpGet i; OpUpdate i] |})
              else (inl (PythonError "OperationalError"), logged [OpGet i; OpUpdate i] st)
          | _ => (inl (PythonError "AttributeError"), logged [OpGet i] st)
          end
      end
  end.
Proof.
  intros Hauth. destruct (requires_auth_authorized _ _ _ Hauth) as (payload & Hrun).
  cbn [view]. unfold patch_drinks. rewrite Hrun. run_monad.
  destruct (body req) as [j | why]; [ | reflexivity ].
  destruct (drinks st !! i) as [d | ]; [ | reflexivity ].
  destruct j as [ | b | z | s | l | m | x ]; try reflexivity.
  unfold get_method. run_monad. rewrite !get_truthy. unfold patched.
  destruct d as [dt dr].
  destruct (supplied "title" m) as [t | ] eqn:Ht;
    destruct (supplied "recipe" m) as [r | ] eqn:Hr;
    unfold subscript, or_raise;
    try rewrite (supplied_get _ _ _ Hr); try rewrite (supplied_get _ _ _ Ht);
    run_monad; rewrite <- ?app_assoc; cbn [app];
    (destruct (writable st); [ | reflexivity ]);
    match goal with
    | |- context [long i ?d'] => destruct (long i d'); reflexivity
    end.
Qed.

(** [DELETE /drinks/<id>] on an authorized request. *)
Lemma delete_drinks_run req st i :
  authorized verify_decode_jwt "delete:drinks" req = true ->
  view verify_decode_jwt (DeleteDrinks i) req st =
  match drinks st !! i with
  | None => (inl (HTTPException 404), logged [OpGet i] st)
  | Some d =>
      if writable st
      then (inr {| status := 200;
                   payload := Json (JObj [("success", JBool true); ("deleted", JNum i)]) |},
            {| drinks := delete i (drinks st);
               next_id := next_id st; writable := writable st;
               calls := calls st ++ [OpGet i; OpDelete i] |})
      else (inl (PythonError "OperationalError"), logged [OpGet i; OpDelete i] st)
  end.
Proof.
  intros Hauth. destruct (requires_auth_authorized _ _ _ Hauth) as (payload & Hrun).
  cbn [view]. unfold delete_drinks. rewrite Hrun. run_monad.
  destruct (drinks st !! i) as [d | ]; [ | reflexivity ].
  run_monad. rewrite <- ?app_assoc; cbn [app]. now destruct (writable st).
Qed.

(** [POST /drinks] on an authorized request whose body is a dict. *)
Lemma post_drinks_run req st m :
  authorized verify_decode_jwt "post:drinks" req = true ->
  body req = Decoded (JObj m) ->
  view verify_decode_jwt PostDrinks req st =
  match dict_get "recipe" m with
  | None => (inl (HTTPException 422), st)
  | Some r =>
      match dict_get "title" m with
      | None => (inl (PythonError "KeyError"), st)
      | Some t =>
          if writable st
          then (match long (next_id st) (mkDrink t (dumps r)) with
                | Some long_form =>
                    inr {| status := 200;
                           payload := Json (JObj [("success", JBool true);
                                                  ("drinks", JArr [long_form])]) |}
                | None => inl (PythonError "JSONDecodeError")
                end,
                {| drinks := <[next_id st := mkDrink t (dumps r)]> (drinks st);
                   next_id := next_id st + 1; writable := writable st;
                   calls := calls st ++ [OpInsert] |})
          else (inl (PythonError "OperationalError"), logged [OpInsert] st)
      end
  end.
Proof.
  intros Hauth Hbody. destruct (requires_auth_authorized _ _ _ Hauth) as (payload & Hrun).
  cbn [view]. unfold post_drinks. rewrite Hrun. run_monad. rewrite Hbody.
  unfold str_in, dict_has, option_map, or_raise, subscript. run_monad.
  destruct (dict_get "recipe" m) as [r | ]; [ | reflexivity ].
  cbn [negb]. run_monad. unfold or_raise.
  destruct (dict_get "title" m) as [t | ]; [ | reflexivity ].
  run_monad. destruct (writable st); [ | reflexivity ].
  now destruct (long (next_id st) (mkDrink t (dumps r))).
Qed.

(** [POST /drinks] on an authorized request whose body does not decode:
    [get_json] raises before anything else is done. *)
Lemma post_drinks_undecodable req st why :
  authorized verify_decode_jwt "post:drinks" req = true ->
  body req = Undecodable why ->
  view verify_decode_jwt PostDrinks req st = (inl (HTTPException (fault_status why)), st).
Proof.
  intros Hauth Hbody. destruct (requires_auth_authorized _ _ _ Hauth) as (payload & Hrun).
  cbn [view]. unfold post_drinks. rewrite Hrun. run_monad. now rewrite Hbody.
Qed.

(** [GET /drinks], whoever asks. *)
Lemma get_drinks_run req st :
  view verify_decode_jwt GetDrinks req st =
  (match project_all short (rows_by_id (drinks st)) with
   | Some shorts =>
       inr {| status := 200;
              payload := Json (JObj [("success", JBool true); ("drinks", JArr shorts)]) |}
   | None => inl (PythonError "JSONDecodeError")
   end, logged [OpListAll] st).
Proof.
  cbn [view]. unfold get_drinks, or_raise. run_monad.
  now destruct (project_all short (rows_by_id (drinks st))).
Qed.

(** [GET /drinks-detail] on an authorized request. *)
Lemma get_drinks_detail_run req st :
  authorized verify_decode_jwt "get:drinks-detail" req = true ->
  view verify_decode_jwt GetDrinksDetail req st =
  (match project_all long (rows_by_id (drinks st)) with
   | Some longs =>
       inr {| status := 200;
              payload := Json (JObj [("success", JBool true); ("drinks", JArr longs)]) |}
   | None => inl (PythonError "JSONDecodeError")
   end, logged [OpListAll] st).
Proof.
  intros Hauth. destruct (requires_auth_authorized _ _ _ Hauth) as (payload & Hrun).
  cbn [view]. unfold get_drinks_detail. rewrite Hrun. unfold or_raise. run_monad.
  now destruct (project_all long (rows_by_id (drinks st))).
Qed.

End Handlers.

(** ** Creating a drink *)

Section Create.

Variable verify_decode_jwt : string -> Verdict.

Lemma serve_snd route req st :
  (serve verify_decode_jwt route req st).2 = (view verify_decode_jwt route req st).2.
Proof.
  unfold serve. now destruct (view verify_decode_jwt route req st) as [[e | resp] st'].
Qed.

Lemma dict_has_get k m : dict_has k m = false -> dict_get k m = None.
Proof. unfold dict_has. now destruct (dict_get k m). Qed.

Lemma dict_has_get_some k m : dict_has k m = true -> exists v, dict_get k m = Some v.
Proof. unfold dict_has. destruct (dict_get k m) as [v | ]; [ eauto | discriminate ]. Qed.

(** A body without [recipe] is refused with 422 before the store is
    touched. *)
Lemma post_drinks_missing_recipe req st m :
  authorized verify_decode_jwt "post:drinks" req = true ->
  body req = Decoded (JObj m) ->
  dict_has "recipe" m = false ->
  serve verify_decode_jwt PostDrinks req st = (unprocessable, st).
Proof.
  intros Hauth Hbody Hr. unfold serve.
  rewrite (post_drinks_run _ _ _ _ Hauth Hbody), (dict_has_get _ _ Hr).
  reflexivity.
Qed.

(** C1, where the code departs from it.  The test
    ['title' and 'recipe' not in body] only looks for [recipe]: a body
    with a recipe and no title passes it, [body['title']] then raises a
    [KeyError], and the answer is the framework's 500 page, not the 422
    envelope.  No row is created: the database is untouched. *)
Theorem post_drinks_missing_title req st m :
  authorized verify_decode_jwt "post:drinks" req = true ->
  body req = Decoded (JObj m) ->
  dict_has "recipe" m = true ->
  dict_has "title" m = false ->
  serve verify_decode_jwt PostDrinks req st
  = ({| status := 500; payload := DefaultErrorPage |}, st).
Proof.
  intros Hauth Hbody Hr Ht. unfold serve.
  rewrite (post_drinks_run _ _ _ _ Hauth Hbody), (dict_has_get _ _ Ht).
  destruct (dict_has_get_some _ _ Hr) as (r & ->). reflexivity.
Qed.

End Create.

(** [POST /drinks] with the body [{"recipe": [...]}]. *)
Lemma post_drinks_missing_title_witness :
  serve example_jwt PostDrinks (manager_request (JObj [("recipe", water)])) one_drink
  = ({| status := 500; payload := DefaultErrorPage |}, one_drink).
Proof.
  apply (post_drinks_missing_title example_jwt
           (manager_request (JObj [("recipe", water)])) one_drink
           [("recipe", water)]); reflexivity.
Defined.

(** ** Updating a drink *)

Section Update.

Variable verify_decode_jwt : string -> Verdict.

(** [requires_auth] only reads the [Authorization] header. *)
Lemma requires_auth_header (A : Type) permission req req' (f : Claims -> M A) :
  authorization req = authorization req' ->
  requires_auth verify_decode_jwt permission req f
  = requires_auth verify_decode_jwt permission req' f.
Proof.
  unfold requires_auth, get_token_auth_header. now intros ->.
Qed.

Lemma authorized_header permission req req' :
  authorization req = authorization req' ->
  authorized verify_decode_jwt permission req
  = authorized verify_decode_jwt permission req'.
Proof.
  unfold authorized, get_token_auth_header. now intros ->.
Qed.

(** A request [requires_auth] turns away leaves the database as it was. *)
Lemma view_denied route req st permission :
  (route = GetDrinksDetail /\ permission = "get:drinks-detail") \/
  (route = PostDrinks /\ permission = "post:drinks") \/
  (exists i, route = PatchDrinks i /\ permission = "patch:drinks") \/
  (exists i, route = DeleteDrinks i /\ permission = "delete:drinks") ->
  authorized verify_decode_jwt permission req = false ->
  exists e, view verify_decode_jwt route req st = (inl (RaisedAuthError e), st) /\
            (status_code e = 401 \/ status_code e = 400 \/ status_code e = 403).
Proof.
  intros Hroute Hden.
  destruct (requires_auth_denied verify_decode_jwt permission req Hden) as (e & He & Hs).
  exists e. split.
  - destruct Hroute as [[-> ->] | [[-> ->] | [(i & -> & ->) | (i & -> & ->)]]];
      cbn [view];
      unfold get_drinks_detail, post_drinks, patch_drinks, delete_drinks;
      now rewrite He.
  - destruct (token_rejected verify_decode_jwt req); tauto.
Qed.

(** Where a PATCH leaves the table: as it was, or with the one row
    replaced by the patched row. *)
Lemma patch_drinks_store req st i :
  next_id (view verify_decode_jwt (PatchDrinks i) req st).2 = next_id st /\
  (drinks (view verify_decode_jwt (PatchDrinks i) req st).2 = drinks st \/
   exists d m,
     authorized verify_decode_jwt "patch:drinks" req = true /\
     writable st = true /\ drinks st !! i = Some d /\ body req = Decoded (JObj m) /\
     drinks (view verify_decode_jwt (PatchDrinks i) req st).2
     = <[i := patched d m]> (drinks st)).
Proof.
  destruct (authorized verify_decode_jwt "patch:drinks" req) eqn:Hauth.
  - rewrite (patch_drinks_run _ _ _ _ Hauth).
    destruct (body req) as [j | why] eqn:Hb; [ | now split; [ | left ] ].
    destruct (drinks st !! i) as [d | ] eqn:Hd; [ | now split; [ | left ] ].
    destruct j as [ | b | z | s | l | m | x ]; try (now split; [ | left ]).
    destruct (writable st) eqn:Hw; [ | now split; [ | left ] ].
    split; [ reflexivity | ]. right. exists d, m. repeat split; reflexivity.
  - destruct (view_denied (PatchDrinks i) req st "patch:drinks") as (e & -> & _);
      [ right; right; left; eauto | exact Hauth | ].
    now split; [ | left ].
Qed.

(** C3.  On an existing drink, an authorized PATCH whose body supplies a
    truthy title and no recipe replaces the title of that drink and
    nothing else: the drink keeps its key and its recipe, every other key
    of the table holds what it held, and the store assigns the same next
    key. *)
Theorem patch_title_only req st i d m t :
  authorized verify_decode_jwt "patch:drinks" req = true ->
  writable st = true ->
  drinks st !! i = Some d ->
  body req = Decoded (JObj m) ->
  dict_get "title" m = Some t ->
  truthy t = true ->
  dict_get "recipe" m = None ->
  drinks (serve verify_decode_jwt (PatchDrinks i) req st).2 !! i
  = Some (mkDrink t (recipe d)) /\
  (forall j, j <> i ->
     drinks (serve verify_decode_jwt (PatchDrinks i) req st).2 !! j = drinks st !! j) /\
  next_id (serve verify_decode_jwt (PatchDrinks i) req st).2 = next_id st.
Proof.
  intros Hauth Hw Hd Hbody Ht Htruthy Hr.
  rewrite serve_snd, (patch_drinks_run _ _ _ _ Hauth), Hbody, Hd, Hw.
  cbn [snd drinks next_id].
  assert (Hp : patched d m = mkDrink t (recipe d)).
  { unfold patched, supplied. now rewrite Ht, Htruthy, Hr. }
  rewrite Hp. split; [ apply lookup_insert_eq | ].
  split; [ | reflexivity ].
  intros j Hj. now apply lookup_insert_ne.
Qed.

(** The outcome of a PATCH depends on the body only through the fields
    it supplies. *)
Lemma patch_drinks_supplied req req' st i m m' :
  authorization req = authorization req' ->
  body req = Decoded (JObj m) ->
  body req' = Decoded (JObj m') ->
  supplied "title" m = supplied "title" m' ->
  supplied "recipe" m = supplied "recipe" m' ->
  view verify_decode_jwt (PatchDrinks i) req st
  = view verify_decode_jwt (PatchDrinks i) req' st.
Proof.
  intros Hh Hb Hb' Ht Hr.
  destruct (authorized verify_decode_jwt "patch:drinks" req) eqn:Hauth.
  - pose proof Hauth as Hauth'. rewrite (authorized_header _ _ _ Hh) in Hauth'.
    rewrite (patch_drinks_run _ _ _ _ Hauth), (patch_drinks_run _ _ _ _ Hauth').
    rewrite Hb, Hb'. unfold patched. now rewrite Ht, Hr.
  - cbn [view]. unfold patch_drinks.
    rewrite <- (requires_auth_header _ _ req req' _ Hh).
    destruct (requires_auth_denied verify_decode_jwt _ _ Hauth) as (e & He & _).
    now rewrite !He.
Qed.

Lemma dict_get_remove k k' m :
  dict_get k' (dict_remove k m)
  = if String.eqb k' k then None else dict_get k' m.
Proof.
  unfold dict_remove. induction m as [ | [k0 v0] m IH ]; cbn [List.filter dict_get fst].
  - now destruct (String.eqb k' k).
  - destruct (String.eqb_spec k0 k) as [-> | Hne]; cbn [negb dict_get].
    + rewrite IH. destruct (String.eqb_spec k' k) as [-> | Hne']; [ reflexivity | ].
      reflexivity.
    + rewrite IH. destruct (String.eqb_spec k' k0) as [-> | Hne']; [ | reflexivity ].
      destruct (String.eqb_spec k0 k); [ contradiction | reflexivity ].
Qed.

Lemma supplied_remove k k' m :
  supplied k' (dict_remove k m) = if String.eqb k' k then None else supplied k' m.
Proof.
  unfold supplied. rewrite dict_get_remove. now destruct (String.eqb k' k).
Qed.

Lemma supplied_falsy k m v :
  dict_get k m = Some v -> truthy v = false -> supplied k m = None.
Proof. unfold supplied. now intros -> ->. Qed.

(** C7.  On an existing drink, a PATCH whose body holds a falsy value
    (an empty string, an empty list, ...) for [title] or for [recipe] is
    served exactly as the same request with that key deleted from the
    body, response and database alike, and the stored field keeps its
    prior value. *)
Theorem patch_falsy_is_absent req st i d m k v :
  drinks st !! i = Some d ->
  body req = Decoded (JObj m) ->
  k = "title" \/ k = "recipe" ->
  dict_get k m = Some v ->
  truthy v = false ->
  serve verify_decode_jwt (PatchDrinks i) req st
  = serve verify_decode_jwt (PatchDrinks i)
      (mkRequest (authorization req) (Decoded (JObj (dict_remove k m)))) st /\
  exists d',
    drinks (serve verify_decode_jwt (PatchDrinks i) req st).2 !! i = Some d' /\
    (k = "title" -> title d' = title d) /\
    (k = "recipe" -> recipe d' = recipe d).
Proof.
  intros Hd Hbody Hk Hv Hfalsy.
  pose proof (supplied_falsy _ _ _ Hv Hfalsy) as Hnone.
  split.
  - unfold serve.
    rewrite (patch_drinks_supplied req
               (mkRequest (authorization req) (Decoded (JObj (dict_remove k m)))) st i m
               (dict_remove k m)); try reflexivity; try assumption;
      rewrite supplied_remove;
      destruct Hk as [-> | ->]; cbn [String.eqb Ascii.eqb Bool.eqb];
      (reflexivity || exact Hnone).
  - rewrite serve_snd.
    destruct (patch_drinks_store req st i) as [_ [-> | (d0 & m0 & _ & _ & Hd0 & Hb0 & ->)]].
    + exists d. now rewrite Hd.
    + rewrite Hd in Hd0. injection Hd0 as <-.
      rewrite Hbody in Hb0. injection Hb0 as <-.
      exists (patched d m). rewrite lookup_insert_eq. split; [ reflexivity | ].
      unfold patched; split; intros ->; now rewrite Hnone.
Qed.

(** C10, as the code has it.  On an existing drink, an authorized PATCH
    whose body is a JSON object that supplies neither a title nor a
    recipe (absent or falsy) answers 200 with
    [{success: true, drinks: [long form]}], the long form being that of
    the drink as it was (its key, its title, its stored recipe parsed),
    and leaves the table, the next key and the storage state as they
    were. *)
Theorem patch_without_fields_is_identity req st i d m :
  authorized verify_decode_jwt "patch:drinks" req = true ->
  writable st = true ->
  store_ok st ->
  drinks st !! i = Some d ->
  body req = Decoded (JObj m) ->
  supplied "title" m = None ->
  supplied "recipe" m = None ->
  exists r,
    loads (recipe d) = Some r /\
    (serve verify_decode_jwt (PatchDrinks i) req st).1
    = {| status := 200;
         payload := Json (JObj [("success", JBool true);
                                ("drinks",
                                 JArr [JObj [("id", JNum i); ("title", title d);
                                             ("recipe", r)]])]) |} /\
    drinks (serve verify_decode_jwt (PatchDrinks i) req st).2 = drinks st /\
    next_id (serve verify_decode_jwt (PatchDrinks i) req st).2 = next_id st /\
    writable (serve verify_decode_jwt (PatchDrinks i) req st).2 = writable st.
Proof.
  intros Hauth Hw [Hrecipes _] Hd Hbody Ht Hr.
  assert (Hp : patched d m = d).
  { unfold patched. rewrite Ht, Hr. now destruct d. }
  destruct (Hrecipes i d Hd) as (r & Hwf & Hrec).
  assert (Hloads : loads (recipe d) = Some r).
  { now rewrite Hrec, (loads_dumps r Hwf). }
  exists r. split; [ exact Hloads | ].
  unfold serve. rewrite (patch_drinks_run _ _ _ _ Hauth), Hbody, Hd, Hw, Hp.
  unfold long. rewrite Hloads.
  cbn [fst snd drinks next_id writable].
  repeat split; try reflexivity. now apply insert_id.
Qed.

End Update.

(** ** Listing the drinks *)

Section Listing.

Lemma by_id_total : Total by_id.
Proof. intros [i d] [j e]. unfold by_id. cbn. lia. Qed.

Lemma by_id_trans : Transitive by_id.
Proof. intros [i d] [j e] [k f]. unfold by_id. cbn. lia. Qed.

(** The rows of [order_by(Drink.id)] are the rows of the table. *)
Lemma rows_by_id_elem (t : gmap Z Drink) i d :
  (i, d) ∈ rows_by_id t <-> t !! i = Some d.
Proof.
  unfold rows_by_id. rewrite merge_sort_Permutation. apply elem_of_map_to_list.
Qed.

Lemma sorted_keys_strict (rows : list (Z * Drink)) :
  StronglySorted by_id rows -> NoDup rows.*1 -> StronglySorted Z.lt rows.*1.
Proof.
  induction 1 as [ | [i d] rows Hsorted IH Hall ]; cbn [fmap list_fmap fst].
  - constructor.
  - intros Hnd. apply NoDup_cons in Hnd as [Hi Hnd].
    constructor; [ now apply IH | ].
    apply Forall_fmap, Forall_forall. intros [j e] Hj. cbn.
    pose proof (proj1 (Forall_forall _ _) Hall _ Hj) as Hle. unfold by_id in Hle.
    cbn in Hle. assert (j <> i); [ | lia ].
    intros ->. apply Hi. apply list_elem_of_fmap. now exists (i, e).
Qed.

(** They come by strictly ascending key. *)
Lemma rows_by_id_sorted (t : gmap Z Drink) : StronglySorted Z.lt (rows_by_id t).*1.
Proof.
  apply sorted_keys_strict.
  - apply StronglySorted_merge_sort; [ exact by_id_trans | exact by_id_total ].
  - unfold rows_by_id. rewrite merge_sort_Permutation. apply NoDup_fst_map_to_list.
Qed.


Lemma rows_by_id_length (t : gmap Z Drink) : List.length (rows_by_id t) = size t.
Proof.
  unfold rows_by_id. rewrite merge_sort_Permutation. apply length_map_to_list.
Qed.

Lemma project_all_Forall2 f rows :
  Forall (fun row => is_Some (f row.1 row.2)) rows ->
  exists js, project_all f rows = Some js /\
             Forall2 (fun row j => f row.1 row.2 = Some j) rows js.
Proof.
  induction 1 as [ | [i d] rows [j Hj] _ (js & IH & Hall) ].
  - exists []. split; [ reflexivity | constructor ].
  - exists (j :: js). cbn [project_all fst snd] in *. rewrite Hj, IH.
    split; [ reflexivity | now constructor ].
Qed.




(** On a table that satisfies the data invariant every row has a short
    form. *)
Lemma project_all_short st :
  store_ok st ->
  exists shorts,
    project_all short (rows_by_id (drinks st)) = Some shorts /\
    Forall2 (fun row s => short row.1 row.2 = Some s) (rows_by_id (drinks st)) shorts.
Proof.
  intros [Hrecipes _]. apply project_all_Forall2.
  apply Forall_forall. intros [i d] Hin. apply rows_by_id_elem in Hin.
  destruct (Hrecipes i d Hin) as (r & Hwf & Hrec). cbn [fst snd].
  unfold short. rewrite Hrec, (loads_dumps r Hwf). eauto.
Qed.

Variable verify_decode_jwt : string -> Verdict.


(** ** Deleting a drink *)

(** C6.  On an existing drink, an authorized [DELETE /drinks/<id>] answers
    200 with [{success: true, deleted: id}] for the key asked; the key is
    then gone from the table and from the rows a listing returns, the
    other rows are as they were, and the same DELETE once more is
    answered 404 with the envelope of the 404 handler. *)
Theorem delete_existing req st i d :
  authorized verify_decode_jwt "delete:drinks" req = true ->
  writable st = true ->
  drinks st !! i = Some d ->
  (serve verify_decode_jwt (DeleteDrinks i) req st).1
  = {| status := 200;
       payload := Json (JObj [("success", JBool true); ("deleted", JNum i)]) |} /\
  drinks (serve verify_decode_jwt (DeleteDrinks i) req st).2 !! i = None /\
  (i ∉ (rows_by_id (drinks (serve verify_decode_jwt (DeleteDrinks i) req st).2)).*1) /\
  (forall j, j <> i ->
     drinks (serve verify_decode_jwt (DeleteDrinks i) req st).2 !! j = drinks st !! j) /\
  (serve verify_decode_jwt (DeleteDrinks i) req
     (serve verify_decode_jwt (DeleteDrinks i) req st).2).1
  = {| status := 404;
       payload := Json (JObj [("success", JBool false); ("error", JNum 404);
                              ("message", JStr "resource not found")]) |}.
Proof.
  intros Hauth Hw Hd.
  assert (Hrun : serve verify_decode_jwt (DeleteDrinks i) req st
                 = ({| status := 200;
                       payload := Json (JObj [("success", JBool true);
                                              ("deleted", JNum i)]) |},
                    {| drinks := delete i (drinks st); next_id := next_id st;
                       writable := writable st;
                       calls := calls st ++ [OpGet i; OpDelete i] |})).
  { unfold serve. now rewrite (delete_drinks_run _ _ _ _ Hauth), Hd, Hw. }
  rewrite Hrun. cbn [fst snd drinks].
  split; [ reflexivity | ]. split; [ apply lookup_delete_eq | ].
  split; [ | split ].
  - intros Hin. apply list_elem_of_fmap in Hin as ([j e] & Hj & Hin).
    cbn in Hj. subst j. apply rows_by_id_elem in Hin.
    now rewrite lookup_delete_eq in Hin.
  - intros j Hj. now apply lookup_delete_ne.
  - unfold serve. rewrite (delete_drinks_run _ _ _ _ Hauth). cbn [drinks].
    now rewrite lookup_delete_eq.
Qed.

End Listing.

(** ** The data invariant and failed requests *)

Section Invariant.

Variable verify_decode_jwt : string -> Verdict.

Lemma wf_json_member k m v :
  wf_json (JObj m) = true -> dict_get k m = Some v -> wf_json v = true.
Proof.
  cbn [wf_json]. intros H. apply andb_true_iff in H as [_ H].
  induction m as [ | [k' v'] m IH ]; [ discriminate | ].
  cbn [forallb fst snd dict_get] in *. apply andb_true_iff in H as [Hv H].
  apply andb_true_iff in Hv as [_ Hv].
  destruct (String.eqb k k'); [ now intros [= <-] | now apply IH ].
Qed.

(** [POST /drinks] on an authorized request whose body is not a dict:
    what [get_json] raised, 422, or an exception of Python, before the
    store is touched. *)
Lemma post_drinks_not_dict req st :
  authorized verify_decode_jwt "post:drinks" req = true ->
  (forall m, body req <> Decoded (JObj m)) ->
  exists e, view verify_decode_jwt PostDrinks req st = (inl e, st) /\
            (e = HTTPException 422 \/
             (exists why, body req = Undecodable why /\
                          e = HTTPException (fault_status why)) \/
             exists name, e = PythonError name).
Proof.
  intros Hauth Hbody.
  destruct (body req) as [j | why] eqn:Hb.
  2: { rewrite (post_drinks_undecodable _ _ _ why Hauth Hb).
       eexists; split; [ reflexivity | ]. right; left. now exists why. }
  destruct (requires_auth_authorized _ _ _ Hauth) as (payload & Hrun).
  cbn [view]. unfold post_drinks. rewrite Hrun. run_monad. rewrite Hb.
  destruct j as [ | b | z | s | l | m | x ]; try (now edestruct Hbody);
    unfold str_in, option_map, or_raise; run_monad;
    try match goal with
        | |- context [negb ?b] => destruct b; cbn [negb]; run_monad
        end;
    (eexists; split; [ reflexivity | ]);
    first [ left; reflexivity | right; right; eexists; reflexivity ].
Qed.

(** Where a POST leaves the database: as it was up to the log, or with
    one row more under the key the store assigned. *)
Lemma post_drinks_store req st :
  (drinks (view verify_decode_jwt PostDrinks req st).2 = drinks st /\
   next_id (view verify_decode_jwt PostDrinks req st).2 = next_id st /\
   forall resp, (view verify_decode_jwt PostDrinks req st).1 <> inr resp) \/
  exists m t r,
    body req = Decoded (JObj m) /\
    dict_get "title" m = Some t /\ dict_get "recipe" m = Some r /\
    drinks (view verify_decode_jwt PostDrinks req st).2
    = <[next_id st := mkDrink t (dumps r)]> (drinks st) /\
    next_id (view verify_decode_jwt PostDrinks req st).2 = next_id st + 1.
Proof.
  destruct (authorized verify_decode_jwt "post:drinks" req) eqn:Hauth.
  - destruct (body req) as [[ | b | z | s | l | m | x ] | why] eqn:Hb.
    6: { rewrite (post_drinks_run _ _ _ _ Hauth Hb).
         destruct (dict_get "recipe" m) as [r | ] eqn:Hr; [ | now left ].
         destruct (dict_get "title" m) as [t | ] eqn:Ht; [ | now left ].
         destruct (writable st); [ | now left ].
         right. exists m, t, r. now repeat split. }
    all: destruct (post_drinks_not_dict req st Hauth) as (e & -> & _);
      [ rewrite Hb; discriminate | now left ].
  - destruct (view_denied verify_decode_jwt PostDrinks req st "post:drinks")
      as (e & -> & _); [ right; left; eauto | exact Hauth | now left ].
Qed.

(** Where a DELETE leaves the database. *)
Lemma delete_drinks_store req st i :
  next_id (view verify_decode_jwt (DeleteDrinks i) req st).2 = next_id st /\
  (drinks (view verify_decode_jwt (DeleteDrinks i) req st).2 = drinks st /\
   (forall resp, (view verify_decode_jwt (DeleteDrinks i) req st).1 <> inr resp) \/
   drinks (view verify_decode_jwt (DeleteDrinks i) req st).2 = delete i (drinks st) /\
   (view verify_decode_jwt (DeleteDrinks i) req st).1
   = inr {| status := 200;
            payload := Json (JObj [("success", JBool true); ("deleted", JNum i)]) |}).
Proof.
  destruct (authorized verify_decode_jwt "delete:drinks" req) eqn:Hauth.
  - rewrite (delete_drinks_run _ _ _ _ Hauth).
    destruct (drinks st !! i) as [d | ]; [ | now split; [ | left ] ].
    destruct (writable st); now split; [ | (left + right) ].
  - destruct (view_denied verify_decode_jwt (DeleteDrinks i) req st "delete:drinks")
      as (e & -> & _); [ right; right; right; eauto | exact Hauth | ].
    now split; [ | left ].
Qed.

(** A listing leaves the table as it was. *)
Lemma get_drinks_detail_store req st :
  drinks (view verify_decode_jwt GetDrinksDetail req st).2 = drinks st /\
  next_id (view verify_decode_jwt GetDrinksDetail req st).2 = next_id st.
Proof.
  destruct (authorized verify_decode_jwt "get:drinks-detail" req) eqn:Hauth.
  - now rewrite (get_drinks_detail_run _ _ _ Hauth).
  - now destruct (view_denied verify_decode_jwt GetDrinksDetail req st "get:drinks-detail")
      as (e & -> & _); [ left | exact Hauth | ].
Qed.

Lemma patched_recipe_ok d m :
  wf_json (JObj m) = true -> recipe_ok d -> recipe_ok (patched d m).
Proof.
  intros Hwf Hd. unfold patched, recipe_ok. cbn [recipe].
  destruct (supplied "recipe" m) as [r | ] eqn:Hr; [ | exact Hd ].
  exists r. split; [ | reflexivity ].
  apply (wf_json_member "recipe" m); [ exact Hwf | exact (supplied_get _ _ _ Hr) ].
Qed.

Lemma store_ok_same st st' :
  drinks st' = drinks st -> next_id st' = next_id st -> store_ok st -> store_ok st'.
Proof. unfold store_ok. now intros -> ->. Qed.

(** Every request keeps the data invariant. *)
Lemma serve_store_ok route req st :
  wf_body (body req) = true ->
  store_ok st ->
  store_ok (serve verify_decode_jwt route req st).2.
Proof.
  intros Hwf Hok. rewrite serve_snd. destruct route as [ | | | i | i ].
  - rewrite get_drinks_run. now apply (store_ok_same st).
  - destruct (get_drinks_detail_store req st) as [Hd Hn]. now apply (store_ok_same st).
  - destruct (post_drinks_store req st)
      as [(Hd & Hn & _) | (m & t & r & Hb & Ht & Hr & Hd & Hn)];
      [ now apply (store_ok_same st) | ].
    destruct Hok as [Hrecipes Hkeys]. unfold store_ok. rewrite Hd, Hn. split.
    + intros j d. rewrite lookup_insert. case_decide as Hj.
      * intros [= <-]. exists r. split; [ | reflexivity ].
        rewrite Hb in Hwf. now apply (wf_json_member "recipe" m).
      * apply Hrecipes.
    + intros j d. rewrite lookup_insert. case_decide as Hj.
      * intros _. lia.
      * intros Hjd. pose proof (Hkeys j d Hjd). lia.
  - destruct (patch_drinks_store verify_decode_jwt req st i)
      as [Hn [Hd | (d & m & _ & _ & Hi & Hb & Hd)]];
      [ now apply (store_ok_same st) | ].
    destruct Hok as [Hrecipes Hkeys]. unfold store_ok. rewrite Hd, Hn. split.
    + intros j d'. rewrite lookup_insert. case_decide as Hj.
      * intros [= <-]. rewrite Hb in Hwf. apply patched_recipe_ok; eauto.
      * apply Hrecipes.
    + intros j d'. rewrite lookup_insert. case_decide as Hj.
      * intros _. subst j. eauto.
      * apply Hkeys.
  - destruct (delete_drinks_store req st i) as [Hn [[Hd _] | [Hd _]]];
      [ now apply (store_ok_same st) | ].
    destruct Hok as [Hrecipes Hkeys]. unfold store_ok. rewrite Hd, Hn. split.
    + intros j d Hj. apply lookup_delete_Some in Hj as [_ Hj]. eauto.
    + intros j d Hj. apply lookup_delete_Some in Hj as [_ Hj]. eauto.
Qed.

(** So does every sequence of requests: from a table that satisfies the
    invariant, such as the empty one, no request leads out of it. *)
Lemma serve_all_store_ok reqs st :
  Forall (fun rr => wf_body (body rr.2) = true) reqs ->
  store_ok st ->
  store_ok (serve_all verify_decode_jwt reqs st).
Proof.
  intros Hreqs. revert st.
  induction Hreqs as [ | [route req] reqs Hwf _ IH ]; intros st Hok; [ exact Hok | ].
  cbn [serve_all]. apply IH. now apply serve_store_ok.
Qed.

Lemma empty_store_ok : store_ok empty_store.
Proof.
  split; intros i d Hd; unfold empty_store in Hd; cbn [drinks] in Hd;
    now rewrite lookup_empty in Hd.
Qed.

Lemma long_recipe_ok i d :
  recipe_ok d -> exists long_form, long i d = Some long_form.
Proof.
  intros (r & Hwf & Hrec). unfold long. rewrite Hrec, (loads_dumps r Hwf). eauto.
Qed.


(** A request [requires_auth] turns away is answered by [auth_error] with 401,
    400 or 403, and the database is as it was. *)
Lemma serve_denied route req st permission :
  (route = GetDrinksDetail /\ permission = "get:drinks-detail") \/
  (route = PostDrinks /\ permission = "post:drinks") \/
  (exists i, route = PatchDrinks i /\ permission = "patch:drinks") \/
  (exists i, route = DeleteDrinks i /\ permission = "delete:drinks") ->
  authorized verify_decode_jwt permission req = false ->
  exists e, serve verify_decode_jwt route req st = (auth_error e, st) /\
            (status_code e = 401 \/ status_code e = 400 \/ status_code e = 403).
Proof.
  intros Hroute Hden.
  destruct (view_denied verify_decode_jwt route req st permission Hroute Hden)
    as (e & Hview & Hs).
  exists e. unfold serve. now rewrite Hview.
Qed.

(** The status of what [get_json] raises is not 200. *)
Lemma fault_status_not_200 why : fault_status why <> 200.
Proof. now destruct why. Qed.


(** C9.  A PATCH or a DELETE that does not answer 200 ([requires_auth]
    turned it away, the key is not in the table, the body does not decode
    or is no dict, the storage failed) leaves the table and the next key
    exactly as they were.  And whatever a PATCH answers, the row of its
    key is afterwards the row as it was or the row with every supplied
    field replaced: the title and the recipe are never written one
    without the other. *)
Theorem failed_mutation_changes_nothing route req st :
  (exists i, route = PatchDrinks i \/ route = DeleteDrinks i) ->
  wf_body (body req) = true ->
  store_ok st ->
  (status (serve verify_decode_jwt route req st).1 <> 200 ->
   drinks (serve verify_decode_jwt route req st).2 = drinks st /\
   next_id (serve verify_decode_jwt route req st).2 = next_id st) /\
  (forall i d,
     route = PatchDrinks i ->
     drinks st !! i = Some d ->
     drinks (serve verify_decode_jwt route req st).2 !! i = Some d \/
     exists m,
       body req = Decoded (JObj m) /\
       drinks (serve verify_decode_jwt route req st).2 !! i = Some (patched d m)).
Proof.
  intros Hroute Hwf [Hrecipes Hkeys]. split.
  - destruct Hroute as (i & [-> | ->]); intros Hfail.
    + destruct (authorized verify_decode_jwt "patch:drinks" req) eqn:Hauth.
      * revert Hfail. unfold serve. rewrite (patch_drinks_run _ _ _ _ Hauth).
        destruct (body req) as [j | why] eqn:Hb; [ | now split ].
        destruct (drinks st !! i) as [d | ] eqn:Hd; [ | now split ].
        destruct j as [ | b | z | s | l | m | x ]; try (now split).
        destruct (writable st); [ | now split ].
        destruct (long_recipe_ok i (patched d m)) as (long_form & ->).
        { apply patched_recipe_ok; eauto. }
        cbn [fst status]. congruence.
      * destruct (serve_denied (PatchDrinks i) req st "patch:drinks") as (e & -> & Hs);
          [ right; right; left; eauto | exact Hauth | now split ].
    + destruct (authorized verify_decode_jwt "delete:drinks" req) eqn:Hauth.
      * revert Hfail. unfold serve. rewrite (delete_drinks_run _ _ _ _ Hauth).
        destruct (drinks st !! i) as [d | ] eqn:Hd; [ | now split ].
        destruct (writable st); [ | now split ].
        cbn [fst status]. congruence.
      * destruct (serve_denied (DeleteDrinks i) req st "delete:drinks") as (e & -> & Hs);
          [ right; right; right; eauto | exact Hauth | now split ].
  - intros i d -> Hd. rewrite serve_snd.
    destruct (patch_drinks_store verify_decode_jwt req st i)
      as [_ [-> | (d0 & m & _ & _ & Hd0 & Hb & ->)]]; [ now left | ].
    right. exists m. rewrite Hd in Hd0. injection Hd0 as <-.
    split; [ exact Hb | apply lookup_insert_eq ].
Qed.

(** What a view returns or raises. *)
Lemma view_outcome route req st :
  match (view verify_decode_jwt route req st).1 with
  | inr resp => status resp = 200
  | inl (HTTPException code) =>
      code = 404 \/ code = 422 \/
      exists why, body req = Undecodable why /\ code = fault_status why
  | inl (RaisedAuthError e) =>
      status_code e = 401 \/ status_code e = 400 \/ status_code e = 403
  | inl (PythonError _) => True
  end.
Proof.
  destruct route as [ | | | i | i ].
  - rewrite get_drinks_run. now destruct (project_all _ _).
  - destruct (authorized verify_decode_jwt "get:drinks-detail" req) eqn:Hauth.
    + rewrite (get_drinks_detail_run _ _ _ Hauth). now destruct (project_all _ _).
    + now destruct (view_denied verify_decode_jwt GetDrinksDetail req st "get:drinks-detail")
        as (e & -> & Hs); [ left | exact Hauth | ].
  - destruct (authorized verify_decode_jwt "post:drinks" req) eqn:Hauth.
    + destruct (body req) as [[ | b | z | s | l | m | x ] | why] eqn:Hb.
      6: { rewrite (post_drinks_run _ _ _ _ Hauth Hb).
           destruct (dict_get "recipe" m); [ | now right; left ].
           destruct (dict_get "title" m); [ | exact I ].
           destruct (writable st); [ | exact I ]. now destruct (long _ _). }
      all: destruct (post_drinks_not_dict req st Hauth)
          as (e & -> & [-> | [(why' & Hw' & ->) | (name & ->)]]);
        try (rewrite Hb; discriminate); cbn [fst]; try tauto;
        right; right; exists why'; split; [ congruence | reflexivity ].
    + now destruct (view_denied verify_decode_jwt PostDrinks req st "post:drinks")
        as (e & -> & Hs); [ right; left | exact Hauth | ].
  - destruct (authorized verify_decode_jwt "patch:drinks" req) eqn:Hauth.
    + rewrite (patch_drinks_run _ _ _ _ Hauth).
      destruct (body req) as [j | why] eqn:Hb; [ | right; right; eauto ].
      destruct (drinks st !! i); [ | now left ].
      destruct j; try exact I.
      destruct (writable st); [ | exact I ]. now destruct (long _ _).
    + now destruct (view_denied verify_decode_jwt (PatchDrinks i) req st "patch:drinks")
        as (e & -> & Hs); [ right; right; left; eauto | exact Hauth | ].
  - destruct (authorized verify_decode_jwt "delete:drinks" req) eqn:Hauth.
    + rewrite (delete_drinks_run _ _ _ _ Hauth).
      destruct (drinks st !! i); [ | now left ].
      now destruct (writable st).
    + now destruct (view_denied verify_decode_jwt (DeleteDrinks i) req st "delete:drinks")
        as (e & -> & Hs); [ right; right; right; eauto | exact Hauth | ].
Qed.

(** C4, as the code has it.  A response is a 200, or the envelope
    [{success: false, error: <status>, message: <string>}] whose [error]
    is the status of the response, made by one of the registered error
    handlers (401, 400 and 403 for an [AuthError], 404, 422), or an error
    page of the framework, which is not this envelope: with status 500
    for an exception no handler is registered for, and with the status
    of what [get_json] raised (400, 415) for a body that does not
    decode. *)
Theorem error_responses route req st :
  status (serve verify_decode_jwt route req st).1 = 200 \/
  (exists message,
     (serve verify_decode_jwt route req st).1
     = jsonify (error_body (status (serve verify_decode_jwt route req st).1) message)
               (status (serve verify_decode_jwt route req st).1) /\
     In (status (serve verify_decode_jwt route req st).1) [400; 401; 403; 404; 422]) \/
  (serve verify_decode_jwt route req st).1
  = {| status := 500; payload := DefaultErrorPage |} \/
  (exists why,
     body req = Undecodable why /\
     (serve verify_decode_jwt route req st).1
     = {| status := fault_status why; payload := DefaultErrorPage |}).
Proof.
  pose proof (view_outcome route req st) as H. unfold serve.
  destruct (view verify_decode_jwt route req st) as [[[code | e | name] | resp] st'];
    cbn [fst] in *.
  - destruct H as [-> | [-> | (why & Hb & ->)]].
    + right; left. exists "resource not found". split; [ reflexivity | cbn; tauto ].
    + right; left. exists "unprocessable". split; [ reflexivity | cbn; tauto ].
    + right; right; right. exists why. split; [ exact Hb | now destruct why ].
  - right; left. exists (error_description e). split; [ reflexivity | ].
    cbn [handle_exception auth_error jsonify status In]. lia.
  - now right; right; left.
  - now left.
Qed.

End Invariant.

(** ** The statements on the example data *)

Lemma one_drink_ok : store_ok one_drink.
Proof.
  split; intros i d Hd; unfold one_drink in Hd; cbn [drinks] in Hd;
    apply lookup_singleton_Some in Hd as [<- <-].
  - exists water. split; reflexivity.
  - reflexivity.
Qed.

Lemma two_drinks_ok : store_ok two_drinks.
Proof.
  split; intros i d Hd; unfold two_drinks in Hd; cbn [drinks] in Hd;
    apply lookup_insert_Some in Hd as [[<- <-] | [_ Hd]];
    try apply lookup_singleton_Some in Hd as [<- <-]; try reflexivity.
  - exists creme. split; reflexivity.
  - exists water. split; reflexivity.
Qed.

(** Renaming the one drink of the table. *)
Lemma patch_title_only_witness :
  drinks (serve example_jwt (PatchDrinks 1)
            (manager_request (JObj [("title", JStr "New")])) one_drink).2 !! 1
  = Some (mkDrink (JStr "New") (recipe water_row)) /\
  (forall j, j <> 1 ->
     drinks (serve example_jwt (PatchDrinks 1)
               (manager_request (JObj [("title", JStr "New")])) one_drink).2 !! j
     = drinks one_drink !! j) /\
  next_id (serve example_jwt (PatchDrinks 1)
             (manager_request (JObj [("title", JStr "New")])) one_drink).2
  = next_id one_drink.
Proof.
  apply (patch_title_only example_jwt
           (manager_request (JObj [("title", JStr "New")])) one_drink 1 water_row
           [("title", JStr "New")] (JStr "New")); reflexivity.
Defined.


(** Deleting the one drink, twice. *)
Lemma delete_existing_witness :
  (serve example_jwt (DeleteDrinks 1) (manager_request JNull) one_drink).1
  = {| status := 200;
       payload := Json (JObj [("success", JBool true); ("deleted", JNum 1)]) |} /\
  drinks (serve example_jwt (DeleteDrinks 1) (manager_request JNull) one_drink).2 !! 1
  = None /\
  (1 ∉ (rows_by_id
          (drinks (serve example_jwt (DeleteDrinks 1) (manager_request JNull)
                     one_drink).2)).*1) /\
  (forall j, j <> 1 ->
     drinks (serve example_jwt (DeleteDrinks 1) (manager_request JNull) one_drink).2 !! j
     = drinks one_drink !! j) /\
  (serve example_jwt (DeleteDrinks 1) (manager_request JNull)
     (serve example_jwt (DeleteDrinks 1) (manager_request JNull) one_drink).2).1
  = {| status := 404;
       payload := Json (JObj [("success", JBool false); ("error", JNum 404);
                              ("message", JStr "resource not found")]) |}.
Proof.
  apply (delete_existing example_jwt (manager_request JNull) one_drink 1 water_row);
    reflexivity.
Defined.

(** A PATCH with the empty string for a title. *)
Lemma patch_falsy_is_absent_witness :
  serve example_jwt (PatchDrinks 1) (manager_request (JObj [("title", JStr EmptyString)])) one_drink
  = serve example_jwt (PatchDrinks 1)
      (mkRequest (authorization (manager_request (JObj [("title", JStr EmptyString)])))
                 (Decoded (JObj (dict_remove "title" [("title", JStr EmptyString)]))))
      one_drink /\
  exists d',
    drinks (serve example_jwt (PatchDrinks 1)
              (manager_request (JObj [("title", JStr EmptyString)])) one_drink).2 !! 1 = Some d' /\
    ("title" = "title" -> title d' = title water_row) /\
    ("title" = "recipe" -> recipe d' = recipe water_row).
Proof.
  apply (patch_falsy_is_absent example_jwt
           (manager_request (JObj [("title", JStr EmptyString)])) one_drink 1 water_row
           [("title", JStr EmptyString)] "title" (JStr EmptyString)); try reflexivity.
  left. reflexivity.
Defined.


(** A DELETE of a key the table does not hold. *)
Lemma failed_mutation_changes_nothing_witness :
  (status (serve example_jwt (DeleteDrinks 7) (manager_request JNull) one_drink).1 <> 200 ->
   drinks (serve example_jwt (DeleteDrinks 7) (manager_request JNull) one_drink).2
   = drinks one_drink /\
   next_id (serve example_jwt (DeleteDrinks 7) (manager_request JNull) one_drink).2
   = next_id one_drink) /\
  (forall i d,
     DeleteDrinks 7 = PatchDrinks i ->
     drinks one_drink !! i = Some d ->
     drinks (serve example_jwt (DeleteDrinks 7) (manager_request JNull) one_drink).2 !! i
     = Some d \/
     exists m,
       body (manager_request JNull) = Decoded (JObj m) /\
       drinks (serve example_jwt (DeleteDrinks 7) (manager_request JNull) one_drink).2 !! i
       = Some (patched d m)).
Proof.
  apply (failed_mutation_changes_nothing example_jwt (DeleteDrinks 7)
           (manager_request JNull) one_drink).
  - exists 7. right. reflexivity.
  - reflexivity.
  - exact one_drink_ok.
Defined.

(** A PATCH of the drink with the float, with the empty dict for a
    body. *)
Lemma patch_without_fields_is_identity_witness :
  exists r,
    loads (recipe creme_row) = Some r /\
    (serve example_jwt (PatchDrinks 2) (manager_request (JObj [])) two_drinks).1
    = {| status := 200;
         payload := Json (JObj [("success", JBool true);
                                ("drinks",
                                 JArr [JObj [("id", JNum 2); ("title", title creme_row);
                                             ("recipe", r)]])]) |} /\
    drinks (serve example_jwt (PatchDrinks 2) (manager_request (JObj [])) two_drinks).2
    = drinks two_drinks /\
    next_id (serve example_jwt (PatchDrinks 2) (manager_request (JObj [])) two_drinks).2
    = next_id two_drinks /\
    writable (serve example_jwt (PatchDrinks 2) (manager_request (JObj [])) two_drinks).2
    = writable two_drinks.
Proof.
  apply (patch_without_fields_is_identity example_jwt (manager_request (JObj []))
           two_drinks 2 creme_row []); try reflexivity.
  exact two_drinks_ok.
Defined.

(** ** Where the statements of the specification fail *)

(** C4 as stated fails: an authorized [PATCH /drinks/1] whose body is a
    JSON list raises an [AttributeError] at [body.get]; no handler is
    registered for it, the answer is 500, and the body of that response
    is not the envelope. *)
Lemma error_envelope_counterexample :
  status (serve example_jwt (PatchDrinks 1)
            (manager_request (JArr [JStr "Tea"])) one_drink).1 = 500 /\
  forall message,
    payload (serve example_jwt (PatchDrinks 1)
               (manager_request (JArr [JStr "Tea"])) one_drink).1
    <> Json (error_body 500 message).
Proof.
  split; [ reflexivity | ]. intros message H. vm_compute in H. discriminate H.
Qed.


(** C10 as stated fails: the JSON body [[]] supplies neither a title nor
    a recipe, and an authorized [PATCH /drinks/1] with it on an existing
    drink does not answer 200: [body.get] raises an [AttributeError] on
    the list, and the answer is the 500 page of the framework. *)
Lemma patch_without_fields_counterexample :
  authorized example_jwt "patch:drinks" (manager_request (JArr [])) = true /\
  drinks one_drink !! 1 = Some water_row /\
  body (manager_request (JArr [])) = Decoded (JArr []) /\
  str_in "title" (JArr []) = Some false /\
  str_in "recipe" (JArr []) = Some false /\
  serve example_jwt (PatchDrinks 1) (manager_request (JArr [])) one_drink
  = ({| status := 500; payload := DefaultErrorPage |},
     {| drinks := drinks one_drink; next_id := next_id one_drink;
        writable := writable one_drink; calls := calls one_drink ++ [OpGet 1] |}).
Proof. repeat split. Qed.

(** * Further properties of the handlers *)

Section Further.

Variable verify_decode_jwt : string -> Verdict.

(** ** Refusals *)

Lemma required_permission_view route permission :
  required_permission route = Some permission ->
  (route = GetDrinksDetail /\ permission = "get:drinks-detail") \/
  (route = PostDrinks /\ permission = "post:drinks") \/
  (exists i, route = PatchDrinks i /\ permission = "patch:drinks") \/
  (exists i, route = DeleteDrinks i /\ permission = "delete:drinks").
Proof.
  destruct route as [ | | | i | i ]; cbn; intros [= <-]; eauto 6.
Qed.

(** X1.  A request that does not pass [requires_auth] on a decorated
    route (no or a bad token, no permissions list, or a list without the
    permission of the route) is answered by the [AuthError] handler with
    401, 400 or 403 and the envelope whose [error] is that status; the
    view is not entered, so the database is untouched, and the answer is
    the same whatever the table holds. *)
Theorem refused_request_never_reaches_the_store route permission req st :
  required_permission route = Some permission ->
  authorized verify_decode_jwt permission req = false ->
  exists e,
    (status_code e = 401 \/ status_code e = 400 \/ status_code e = 403) /\
    serve verify_decode_jwt route req st
    = (jsonify (error_body (status_code e) (error_description e)) (status_code e), st) /\
    forall st', (serve verify_decode_jwt route req st').1
                = (serve verify_decode_jwt route req st).1.
Proof.
  intros Hperm Hden. apply required_permission_view in Hperm.
  destruct (requires_auth_denied verify_decode_jwt permission req Hden) as (e & He & Hs).
  assert (Hview : forall st0, view verify_decode_jwt route req st0
                              = (inl (RaisedAuthError e), st0)).
  { intros st0.
    destruct Hperm as [[-> ->] | [[-> ->] | [(i & -> & ->) | (i & -> & ->)]]];
      cbn [view];
      unfold get_drinks_detail, post_drinks, patch_drinks, delete_drinks;
      now rewrite He. }
  exists e. split; [ destruct (token_rejected verify_decode_jwt req); tauto | ].
  unfold serve. split; [ now rewrite Hview | ].
  intros st'. now rewrite !Hview.
Qed.

(** X2.  [POST /drinks] with a body that decodes and holds no ['recipe'] (a dict
    without the key, a list without the element, a string without the
    substring) is answered by the 422 handler with the message
    [unprocessable], before any store operation: the database, log
    included, is as it was. *)
Theorem post_drinks_without_recipe req st j :
  authorized verify_decode_jwt "post:drinks" req = true ->
  body req = Decoded j ->
  str_in "recipe" j = Some false ->
  serve verify_decode_jwt PostDrinks req st
  = (jsonify (error_body 422 "unprocessable") 422, st).
Proof.
  intros Hauth Hbody Hin.
  destruct (requires_auth_authorized _ _ _ Hauth) as (payload & Hrun).
  unfold serve. cbn [view]. unfold post_drinks. rewrite Hrun. run_monad.
  rewrite Hbody, Hin. reflexivity.
Qed.

(** X3.  [POST /drinks] with a body that is not a dict (or that does not
    decode) never creates a drink and never answers 200, whoever asks: the
    database, log included, is as it was ([body['title']] needs a dict,
    and the test before it lets no other value through without an
    exception). *)
Theorem post_drinks_body_not_a_dict req st :
  (forall m, body req <> Decoded (JObj m)) ->
  (serve verify_decode_jwt PostDrinks req st).2 = st /\
  status (serve verify_decode_jwt PostDrinks req st).1 <> 200.
Proof.
  intros Hbody.
  destruct (authorized verify_decode_jwt "post:drinks" req) eqn:Hauth.
  - unfold serve.
    destruct (post_drinks_not_dict verify_decode_jwt req st Hauth Hbody)
      as (e & -> & [-> | [(why & _ & ->) | (name & ->)]]);
      (split; [ reflexivity | ]); try discriminate.
    cbn [fst handle_exception]. destruct why; discriminate.
  - destruct (serve_denied verify_decode_jwt PostDrinks req st "post:drinks")
      as (e & -> & Hs); [ right; left; eauto | exact Hauth | ].
    split; [ reflexivity | ]. cbn [fst auth_error jsonify status]. lia.
Qed.

(** X4.  An authorized DELETE of a key the table does not hold, whatever
    the body, and an authorized PATCH of such a key whose body decodes,
    whatever it decodes to (a value that is no dict included), are
    answered 404 with the envelope of the 404 handler, message
    [resource not found]; the lookup is the only store operation, and
    the table is as it was. *)
Theorem missing_drink_not_found route req st i :
  (route = PatchDrinks i /\ authorized verify_decode_jwt "patch:drinks" req = true /\
   exists j, body req = Decoded j) \/
  (route = DeleteDrinks i /\ authorized verify_decode_jwt "delete:drinks" req = true) ->
  drinks st !! i = None ->
  serve verify_decode_jwt route req st
  = ({| status := 404;
        payload := Json (JObj [("success", JBool false); ("error", JNum 404);
                               ("message", JStr "resource not found")]) |},
     {| drinks := drinks st; next_id := next_id st; writable := writable st;
        calls := calls st ++ [OpGet i] |}).
Proof.
  intros [(-> & Hauth & j & Hbody) | [-> Hauth]] Hnone; unfold serve.
  - now rewrite (patch_drinks_run _ _ _ _ Hauth), Hbody, Hnone.
  - now rewrite (delete_drinks_run _ _ _ _ Hauth), Hnone.
Qed.

(** X5.  An authorized PATCH of an existing drink with a body that is not
    a dict does not reach the update: when the body decodes, [body.get]
    raises and the answer is the 500 page of the framework; when it does
    not, the answer is the page with the status [get_json] raised.
    Nothing is committed, and the lookup is the only store operation. *)
Theorem patch_drinks_body_not_a_dict req st i d :
  authorized verify_decode_jwt "patch:drinks" req = true ->
  drinks st !! i = Some d ->
  (forall m, body req <> Decoded (JObj m)) ->
  serve verify_decode_jwt (PatchDrinks i) req st
  = ({| status := match body req with
                  | Decoded _ => 500
                  | Undecodable why => fault_status why
                  end;
        payload := DefaultErrorPage |}, logged [OpGet i] st).
Proof.
  intros Hauth Hd Hbody. unfold serve.
  rewrite (patch_drinks_run _ _ _ _ Hauth), Hd.
  destruct (body req) as [[ | b | z | s | l | m | x ] | why]; try reflexivity.
  - now destruct (Hbody m).
  - now destruct why.
Qed.

(** X21.  A body that [get_json] does not decode is answered with the
    page of the framework and the status of what [get_json] raised: by an
    authorized POST before the store is touched, and by an authorized
    PATCH after the lookup and before the 404 test, so that the answer
    does not tell whether the table holds the key.  The table is as it
    was. *)
Theorem undecodable_body_is_refused req st why :
  body req = Undecodable why ->
  (authorized verify_decode_jwt "post:drinks" req = true ->
   serve verify_decode_jwt PostDrinks req st
   = ({| status := fault_status why; payload := DefaultErrorPage |}, st)) /\
  (forall i,
     authorized verify_decode_jwt "patch:drinks" req = true ->
     serve verify_decode_jwt (PatchDrinks i) req st
     = ({| status := fault_status why; payload := DefaultErrorPage |},
        {| drinks := drinks st; next_id := next_id st; writable := writable st;
           calls := calls st ++ [OpGet i] |})) /\
  (fault_status why = 400 \/ fault_status why = 415).
Proof.
  intros Hbody. split; [ | split ].
  - intros Hauth. unfold serve.
    rewrite (post_drinks_undecodable _ _ _ why Hauth Hbody). now destruct why.
  - intros i Hauth. unfold serve.
    rewrite (patch_drinks_run _ _ _ _ Hauth), Hbody. now destruct why.
  - destruct why; [ now left | now right ].
Qed.

(** X22.  The listings and DELETE do not read the body: two requests with
    the same header get the same answer and leave the same database,
    whatever their bodies are, a body that does not decode included. *)
Theorem body_is_read_by_post_and_patch_only route req req' st :
  authorization req = authorization req' ->
  route <> PostDrinks ->
  (forall i, route <> PatchDrinks i) ->
  serve verify_decode_jwt route req st = serve verify_decode_jwt route req' st.
Proof.
  intros Hh Hpost Hpatch. unfold serve.
  destruct route as [ | | | i | i ].
  - reflexivity.
  - cbn [view]. unfold get_drinks_detail.
    now rewrite (requires_auth_header verify_decode_jwt _ _ req req' _ Hh).
  - congruence.
  - exfalso. now apply (Hpatch i).
  - cbn [view]. unfold delete_drinks.
    now rewrite (requires_auth_header verify_decode_jwt _ _ req req' _ Hh).
Qed.


(** ** Listings *)

Lemma long_dumps i t r :
  wf_json r = true ->
  long i (mkDrink t (dumps r)) = Some (JObj [("id", JNum i); ("title", t); ("recipe", r)]).
Proof. intros Hwf. unfold long. cbn [recipe title]. now rewrite (loads_dumps r Hwf). Qed.

(** On a table that satisfies the data invariant every row has a long
    form, which shows the value whose serialization is stored. *)
Lemma project_all_long st :
  store_ok st ->
  exists longs,
    project_all long (rows_by_id (drinks st)) = Some longs /\
    Forall2 (fun row l =>
               exists r, wf_json r = true /\ recipe row.2 = dumps r /\
                         l = JObj [("id", JNum row.1); ("title", title row.2);
                                   ("recipe", r)])
            (rows_by_id (drinks st)) longs.
Proof.
  intros [Hrecipes _].
  assert (Hall : Forall (fun row => is_Some (long row.1 row.2)) (rows_by_id (drinks st))).
  { apply Forall_forall. intros [i d] Hin. apply rows_by_id_elem in Hin.
    cbn [fst snd]. now apply long_recipe_ok, (Hrecipes i). }
  destruct (project_all_Forall2 long _ Hall) as (longs & Hproj & Hlongs).
  exists longs. split; [ exact Hproj | ].
  assert (Hin : Forall (fun row => recipe_ok row.2) (rows_by_id (drinks st))).
  { apply Forall_forall. intros [i d] Hin. apply rows_by_id_elem in Hin.
    now apply (Hrecipes i). }
  clear Hproj Hall. induction Hlongs as [ | [i d] l rows longs Hl _ IH ];
    [ constructor | ].
  apply Forall_cons in Hin as [(r & Hwf & Hrec) Hin].
  constructor; [ | now apply IH ].
  cbn [fst snd] in *. exists r. split; [ exact Hwf | ]. split; [ exact Hrec | ].
  destruct d as [t text]. cbn [recipe title] in *. subst text.
  rewrite long_dumps in Hl by exact Hwf. now injection Hl as <-.
Qed.

(** X6.  With the permission [get:drinks-detail], on a table that
    satisfies the data invariant, [GET /drinks-detail] answers 200 with
    [{success: true, drinks: [...]}]: one long form per row of the table,
    by strictly ascending key, each with the key, the title and, as the
    recipe, the very value whose serialization is stored ([parts]
    included).  The table is not changed. *)
Theorem get_drinks_detail_lists_long_forms req st :
  authorized verify_decode_jwt "get:drinks-detail" req = true ->
  store_ok st ->
  exists longs,
    serve verify_decode_jwt GetDrinksDetail req st
    = ({| status := 200;
          payload := Json (JObj [("success", JBool true); ("drinks", JArr longs)]) |},
       {| drinks := drinks st; next_id := next_id st; writable := writable st;
          calls := calls st ++ [OpListAll] |}) /\
    Forall2 (fun row l =>
               exists r, wf_json r = true /\ recipe row.2 = dumps r /\
                         l = JObj [("id", JNum row.1); ("title", title row.2);
                                   ("recipe", r)])
            (rows_by_id (drinks st)) longs /\
    StronglySorted Z.lt (rows_by_id (drinks st)).*1 /\
    (forall i d, (i, d) ∈ rows_by_id (drinks st) <-> drinks st !! i = Some d) /\
    List.length longs = size (drinks st).
Proof.
  intros Hauth Hok.
  destruct (project_all_long st Hok) as (longs & Hproj & Hlongs).
  exists longs. split; [ | split; [ exact Hlongs | split; [ | split ] ] ].
  - unfold serve. now rewrite (get_drinks_detail_run _ _ _ Hauth), Hproj.
  - apply rows_by_id_sorted.
  - intros i d. apply rows_by_id_elem.
  - rewrite <- (Forall2_length _ _ _ Hlongs). apply rows_by_id_length.
Qed.

(** ** Creating *)


(** ** Updating *)

Lemma patched_idempotent d m : patched (patched d m) m = patched d m.
Proof.
  unfold patched. cbn [title recipe].
  now destruct (supplied "title" m), (supplied "recipe" m).
Qed.


(** The answer and the database of an authorized PATCH. *)
Lemma patch_drinks_serve req st i :
  authorized verify_decode_jwt "patch:drinks" req = true ->
  serve verify_decode_jwt (PatchDrinks i) req st =
  match body req with
  | Undecodable why =>
      ({| status := fault_status why; payload := DefaultErrorPage |}, logged [OpGet i] st)
  | Decoded j =>
      match drinks st !! i with
      | None => (jsonify (error_body 404 "resource not found") 404, logged [OpGet i] st)
      | Some d =>
          match j with
          | JObj m =>
              if writable st
              then (match long i (patched d m) with
                    | Some long_form =>
                        {| status := 200;
                           payload := Json (JObj [("success", JBool true);
                                                  ("drinks", JArr [long_form])]) |}
                    | None => {| status := 500; payload := DefaultErrorPage |}
                    end,
                    {| drinks := <[i := patched d m]> (drinks st);
                       next_id := next_id st; writable := writable st;
                       calls := calls st ++ [OpGet i; OpUpdate i] |})
              else ({| status := 500; payload := DefaultErrorPage |},
                    logged [OpGet i; OpUpdate i] st)
          | _ => ({| status := 500; payload := DefaultErrorPage |}, logged [OpGet i] st)
          end
      end
  end.
Proof.
  intros Hauth. unfold serve. rewrite (patch_drinks_run _ _ _ _ Hauth).
  destruct (body req) as [j | why]; [ | now destruct why ].
  destruct (drinks st !! i) as [d | ]; [ | reflexivity ].
  destruct j as [ | b | z | s | l | m | x ]; try reflexivity.
  destruct (writable st); [ | reflexivity ].
  now destruct (long i (patched d m)).
Qed.

(** X9.  A PATCH is idempotent, whoever asks and whatever the body (a
    body that does not decode included): served
    once more on the database it left, the same request gets the same
    answer and leaves the same table. *)
Theorem patch_drinks_idempotent req st i :
  (serve verify_decode_jwt (PatchDrinks i) req
     (serve verify_decode_jwt (PatchDrinks i) req st).2).1
  = (serve verify_decode_jwt (PatchDrinks i) req st).1 /\
  drinks (serve verify_decode_jwt (PatchDrinks i) req
            (serve verify_decode_jwt (PatchDrinks i) req st).2).2
  = drinks (serve verify_decode_jwt (PatchDrinks i) req st).2.
Proof.
  destruct (authorized verify_decode_jwt "patch:drinks" req) eqn:Hauth.
  - rewrite (patch_drinks_serve req st i Hauth).
    destruct (body req) as [j | why] eqn:Hb.
    2: { cbn [fst snd]. rewrite (patch_drinks_serve _ _ i Hauth), Hb. now split. }
    destruct (drinks st !! i) as [d | ] eqn:Hd.
    + destruct j as [ | b | z | s | l | m | x ].
      6: { destruct (writable st) eqn:Hw; cbn [fst snd];
           rewrite (patch_drinks_serve _ _ i Hauth), Hb; cbn [logged drinks writable].
           - rewrite lookup_insert_eq, patched_idempotent, insert_insert_eq.
             now split.
           - rewrite Hd, Hw. now split. }
      all: cbn [fst snd]; rewrite (patch_drinks_serve _ _ i Hauth), Hb;
        cbn [logged drinks]; rewrite Hd; now split.
    + cbn [fst snd]. rewrite (patch_drinks_serve _ _ i Hauth), Hb. cbn [logged drinks].
      rewrite Hd. now split.
  - destruct (serve_denied verify_decode_jwt (PatchDrinks i) req st "patch:drinks")
      as (e & Hs & _); [ right; right; left; eauto | exact Hauth | ].
    rewrite Hs. cbn [fst snd]. rewrite Hs. now split.
Qed.

(** X10.  A PATCH never writes a falsy value: whatever the request, the
    title of the row afterwards is the title it had or a truthy value,
    and its recipe is the text it had or the serialization of a truthy
    value.  A PATCH cannot blank a title or empty a recipe. *)
Theorem patch_drinks_never_writes_falsy req st i d d' :
  drinks st !! i = Some d ->
  drinks (serve verify_decode_jwt (PatchDrinks i) req st).2 !! i = Some d' ->
  (title d' = title d \/ truthy (title d') = true) /\
  (recipe d' = recipe d \/ exists r, truthy r = true /\ recipe d' = dumps r).
Proof.
  intros Hd. rewrite serve_snd.
  destruct (patch_drinks_store verify_decode_jwt req st i)
    as [_ [-> | (d0 & m & _ & _ & Hd0 & _ & ->)]].
  - rewrite Hd. intros [= <-]. now split; left.
  - rewrite Hd in Hd0. injection Hd0 as <-. rewrite lookup_insert_eq.
    intros [= <-]. unfold patched. cbn [title recipe]. split.
    + destruct (supplied "title" m) as [t | ] eqn:Ht; [ right | now left ].
      now apply (supplied_truthy "title" m).
    + destruct (supplied "recipe" m) as [r | ] eqn:Hr; [ right | now left ].
      exists r. split; [ now apply (supplied_truthy "recipe" m) | reflexivity ].
Qed.


(** ** What a request leaves alone *)

(** X11.  No request changes a drink other than the one it addresses: on
    a table that satisfies the data invariant, a drink stored under a key
    is still stored, unchanged, after any request that is neither a PATCH
    nor a DELETE of that key. *)
Theorem other_drinks_untouched route req st j d :
  store_ok st ->
  drinks st !! j = Some d ->
  route <> PatchDrinks j ->
  route <> DeleteDrinks j ->
  drinks (serve verify_decode_jwt route req st).2 !! j = Some d.
Proof.
  intros [_ Hkeys] Hj Hpatch Hdelete. rewrite serve_snd.
  destruct route as [ | | | i | i ].
  - now rewrite get_drinks_run.
  - destruct (get_drinks_detail_store verify_decode_jwt req st) as [-> _]. exact Hj.
  - destruct (post_drinks_store verify_decode_jwt req st)
      as [(-> & _) | (m & t & r & _ & _ & _ & -> & _)]; [ exact Hj | ].
    rewrite lookup_insert_ne; [ exact Hj | ].
    pose proof (Hkeys _ _ Hj). lia.
  - destruct (patch_drinks_store verify_decode_jwt req st i)
      as [_ [-> | (d0 & m & _ & _ & _ & _ & ->)]]; [ exact Hj | ].
    rewrite lookup_insert_ne; [ exact Hj | congruence ].
  - destruct (delete_drinks_store verify_decode_jwt req st i)
      as [_ [[-> _] | [-> _]]]; [ exact Hj | ].
    rewrite lookup_delete_ne; [ exact Hj | congruence ].
Qed.

(** X12.  Keys come and go by POST and DELETE only: after a request that
    is not a POST the table holds no key it did not hold, and after a
    request that is not a DELETE it still holds every key it held. *)
Theorem keys_change_by_post_and_delete_only route req st j :
  (route <> PostDrinks ->
   is_Some (drinks (serve verify_decode_jwt route req st).2 !! j) ->
   is_Some (drinks st !! j)) /\
  ((forall i, route <> DeleteDrinks i) ->
   is_Some (drinks st !! j) ->
   is_Some (drinks (serve verify_decode_jwt route req st).2 !! j)).
Proof.
  rewrite serve_snd. destruct route as [ | | | i | i ].
  - rewrite get_drinks_run. now split.
  - destruct (get_drinks_detail_store verify_decode_jwt req st) as [-> _]. now split.
  - split; [ congruence | intros _ ].
    destruct (post_drinks_store verify_decode_jwt req st)
      as [(-> & _) | (m & t & r & _ & _ & _ & -> & _)]; [ easy | ].
    rewrite lookup_insert_is_Some. intros Hj.
    destruct (decide (next_id st = j)); [ now left | now right ].
  - destruct (patch_drinks_store verify_decode_jwt req st i)
      as [_ [-> | (d0 & m & _ & _ & Hd0 & _ & ->)]]; [ now split | ].
    rewrite lookup_insert_is_Some. split.
    + intros _ [<- | [_ Hj]]; [ now rewrite Hd0 | exact Hj ].
    + intros _ Hj. destruct (decide (i = j)); [ now left | now right ].
  - split; [ intros _ | intros Hne; now destruct (Hne i) ].
    destruct (delete_drinks_store verify_decode_jwt req st i)
      as [_ [[-> _] | [-> _]]]; [ easy | ].
    intros [d Hd]. apply lookup_delete_Some in Hd as [_ Hd]. eauto.
Qed.

(** ** Sequences of requests *)


(** X14.  An authorized DELETE of the key a successful POST has just
    assigned gives back the table as it was before the POST. *)
Theorem delete_undoes_post req req' st m t r :
  authorized verify_decode_jwt "post:drinks" req = true ->
  authorized verify_decode_jwt "delete:drinks" req' = true ->
  writable st = true ->
  store_ok st ->
  body req = Decoded (JObj m) ->
  dict_get "title" m = Some t ->
  dict_get "recipe" m = Some r ->
  drinks (serve verify_decode_jwt (DeleteDrinks (next_id st)) req'
            (serve verify_decode_jwt PostDrinks req st).2).2
  = drinks st.
Proof.
  intros Hpost Hdelete Hw [_ Hkeys] Hbody Ht Hr.
  assert (Hnew : drinks st !! next_id st = None).
  { destruct (drinks st !! next_id st) as [d | ] eqn:Hd; [ | reflexivity ].
    pose proof (Hkeys _ _ Hd). lia. }
  rewrite (serve_snd _ PostDrinks), (post_drinks_run _ _ _ _ Hpost Hbody), Hr, Ht, Hw.
  cbn [snd]. rewrite serve_snd, (delete_drinks_run _ _ _ _ Hdelete).
  cbn [drinks writable]. rewrite lookup_insert_eq. cbn [snd drinks].
  now apply delete_insert_id.
Qed.

(** X15.  From a table that satisfies the data invariant, the empty one
    for instance, whatever requests were served before, with bodies that
    are well formed or do not decode, [GET /drinks] does not fail: it
    answers 200 with [{success: true, drinks: [...]}] and one entry per
    row of the table. *)
Theorem listing_never_fails reqs req st :
  store_ok st ->
  Forall (fun rr => wf_body (body rr.2) = true) reqs ->
  exists shorts,
    (serve verify_decode_jwt GetDrinks req (serve_all verify_decode_jwt reqs st)).1
    = {| status := 200;
         payload := Json (JObj [("success", JBool true); ("drinks", JArr shorts)]) |} /\
    List.length shorts = size (drinks (serve_all verify_decode_jwt reqs st)).
Proof.
  intros Hok Hreqs.
  pose proof (serve_all_store_ok verify_decode_jwt reqs st Hreqs Hok) as Hok'.
  set (st' := serve_all verify_decode_jwt reqs st) in *.
  destruct (project_all_short st' Hok') as (shorts & Hproj & Hshorts).
  exists shorts. split.
  - unfold serve. now rewrite get_drinks_run, Hproj.
  - rewrite <- (Forall2_length _ _ _ Hshorts). apply rows_by_id_length.
Qed.


(** ** Successful answers *)

Lemma project_all_length f rows js :
  project_all f rows = Some js -> List.length js = List.length rows.
Proof.
  revert js. induction rows as [ | [i d] rows IH ]; intros js; cbn [project_all].
  - now intros [= <-].
  - destruct (f i d) as [j | ]; [ | discriminate ].
    destruct (project_all f rows) as [js' | ]; [ | discriminate ].
    intros [= <-]. cbn [List.length]. now rewrite (IH js').
Qed.

(** X16.  What a 200 answer holds, route by route.  A listing answers
    [{success: true, drinks: [...]}] with one entry per row and leaves the
    table as it was.  A POST and a PATCH answer
    [{success: true, drinks: [long form]}] with exactly one long form,
    that of the row stored afterwards under the key it shows (for a
    PATCH, the key of the URL): the key, the title of the row and its
    stored recipe parsed.  A DELETE answers
    [{success: true, deleted: id}] with the key of the URL, which the
    table held and holds no more, its other rows being as they were. *)
Theorem success_answers route req st :
  status (serve verify_decode_jwt route req st).1 = 200 ->
  match route with
  | GetDrinks | GetDrinksDetail =>
      exists entries,
        payload (serve verify_decode_jwt route req st).1
        = Json (JObj [("success", JBool true); ("drinks", JArr entries)]) /\
        List.length entries = size (drinks st) /\
        drinks (serve verify_decode_jwt route req st).2 = drinks st
  | PostDrinks =>
      exists d r,
        payload (serve verify_decode_jwt route req st).1
        = Json (JObj [("success", JBool true);
                      ("drinks", JArr [JObj [("id", JNum (next_id st));
                                             ("title", title d); ("recipe", r)]])]) /\
        drinks (serve verify_decode_jwt route req st).2 !! next_id st = Some d /\
        loads (recipe d) = Some r
  | PatchDrinks i =>
      exists d r,
        payload (serve verify_decode_jwt route req st).1
        = Json (JObj [("success", JBool true);
                      ("drinks", JArr [JObj [("id", JNum i);
                                             ("title", title d); ("recipe", r)]])]) /\
        drinks (serve verify_decode_jwt route req st).2 !! i = Some d /\
        loads (recipe d) = Some r
  | DeleteDrinks i =>
      payload (serve verify_decode_jwt route req st).1
      = Json (JObj [("success", JBool true); ("deleted", JNum i)]) /\
      is_Some (drinks st !! i) /\
      drinks (serve verify_decode_jwt route req st).2 = delete i (drinks st)
  end.
Proof.
  destruct route as [ | | | i | i ].
  - unfold serve. rewrite get_drinks_run.
    destruct (project_all short _) as [shorts | ] eqn:Hproj; [ | discriminate ].
    intros _. exists shorts. cbn [fst snd payload logged drinks].
    split; [ reflexivity | ]. split; [ | reflexivity ].
    now rewrite (project_all_length _ _ _ Hproj), rows_by_id_length.
  - destruct (authorized verify_decode_jwt "get:drinks-detail" req) eqn:Hauth.
    + unfold serve. rewrite (get_drinks_detail_run _ _ _ Hauth).
      destruct (project_all long _) as [longs | ] eqn:Hproj; [ | discriminate ].
      intros _. exists longs. cbn [fst snd payload logged drinks].
      split; [ reflexivity | ]. split; [ | reflexivity ].
      now rewrite (project_all_length _ _ _ Hproj), rows_by_id_length.
    + destruct (serve_denied verify_decode_jwt GetDrinksDetail req st "get:drinks-detail")
        as (e & -> & Hs); [ left; eauto | exact Hauth | ].
      cbn [fst auth_error jsonify status]. lia.
  - destruct (authorized verify_decode_jwt "post:drinks" req) eqn:Hauth.
    + destruct (body req) as [[ | b | z | s | l | m | x ] | why] eqn:Hb.
      6: { unfold serve. rewrite (post_drinks_run _ _ _ _ Hauth Hb).
           destruct (dict_get "recipe" m) as [r | ]; [ | discriminate ].
           destruct (dict_get "title" m) as [t | ]; [ | discriminate ].
           destruct (writable st); [ | discriminate ].
           unfold long. cbn [recipe title].
           destruct (loads (dumps r)) as [r' | ] eqn:Hloads; [ | discriminate ].
           intros _. exists (mkDrink t (dumps r)), r'.
           cbn [fst snd payload drinks title recipe].
           split; [ reflexivity | ]. split; [ apply lookup_insert_eq | exact Hloads ]. }
      all: unfold serve;
        destruct (post_drinks_not_dict verify_decode_jwt req st Hauth)
          as (e & -> & [-> | [(why' & _ & ->) | (name & ->)]]);
        try (rewrite Hb; discriminate); try discriminate;
        cbn [fst handle_exception]; destruct why'; discriminate.
    + destruct (serve_denied verify_decode_jwt PostDrinks req st "post:drinks")
        as (e & -> & Hs); [ right; left; eauto | exact Hauth | ].
      cbn [fst auth_error jsonify status]. lia.
  - destruct (authorized verify_decode_jwt "patch:drinks" req) eqn:Hauth.
    + rewrite (patch_drinks_serve req st i Hauth).
      destruct (body req) as [j | why]; [ | now destruct why ].
      destruct (drinks st !! i) as [d | ]; [ | discriminate ].
      destruct j as [ | b | z | s | l | m | x ]; try discriminate.
      destruct (writable st); [ | discriminate ].
      unfold long.
      destruct (loads (recipe (patched d m))) as [r' | ] eqn:Hloads; [ | discriminate ].
      intros _. exists (patched d m), r'.
      cbn [fst snd payload drinks].
      split; [ reflexivity | ]. split; [ apply lookup_insert_eq | exact Hloads ].
    + destruct (serve_denied verify_decode_jwt (PatchDrinks i) req st "patch:drinks")
        as (e & -> & Hs); [ right; right; left; eauto | exact Hauth | ].
      cbn [fst auth_error jsonify status]. lia.
  - destruct (authorized verify_decode_jwt "delete:drinks" req) eqn:Hauth.
    + unfold serve. rewrite (delete_drinks_run _ _ _ _ Hauth).
      destruct (drinks st !! i) as [d | ]; [ | discriminate ].
      destruct (writable st); [ | discriminate ].
      intros _. cbn [fst snd payload drinks]. now repeat split.
    + destruct (serve_denied verify_decode_jwt (DeleteDrinks i) req st "delete:drinks")
        as (e & -> & Hs); [ right; right; right; eauto | exact Hauth | ].
      cbn [fst auth_error jsonify status]. lia.
Qed.

End Further.

(** ** The serialization of a recipe *)


Lemma printable_chars_of_uint u : forallb printable (chars_of_uint u) = true.
Proof. induction u; cbn [chars_of_uint forallb]; now rewrite ?IHu. Qed.

Lemma printable_print_int z : forallb printable (print_int z) = true.
Proof.
  destruct z as [ | p | p ]; cbn [print_int forallb];
    now rewrite ?printable_chars_of_uint.
Qed.

Lemma printable_hex_digit n : printable (hex_digit n) = true.
Proof.
  destruct n as [ | [[[[p|p|]|[p|p|]|]|[[p|p|]|[p|p|]|]|]|[[[p|p|]|[p|p|]|]|[[p|p|]|[p|p|]|]|]|] ];
    reflexivity.
Qed.

Lemma printable_hex4 n : forallb printable (hex4 n) = true.
Proof.
  unfold hex4. cbn [forallb]. now rewrite !printable_hex_digit.
Qed.

Lemma printable_escape_point n : forallb printable (escape_point n) = true.
Proof.
  destruct (N.lt_ge_cases n 127) as [Hascii | Hge].
  - assert (Hn : (n < 128)%N) by lia. clear Hascii. revert n Hn.
    apply (below_128 (fun n => forallb printable (escape_point n) = true)).
    intros c Hc.
    destruct c as [[] [] [] [] [] [] [] []];
      try reflexivity; exfalso; revert Hc; vm_compute; discriminate.
  - destruct (N.lt_ge_cases n 65536) as [Hbmp | Hpair].
    + rewrite escape_point_unicode by lia. cbn [forallb]. apply printable_hex4.
    + rewrite escape_point_pair by exact Hpair. cbn [forallb].
      rewrite forallb_app. cbn [forallb]. now rewrite !printable_hex4.
Qed.

Lemma printable_escape_points ns : forallb printable (escape_points ns) = true.
Proof.
  induction ns as [ | n ns IH ]; [ reflexivity | ].
  cbn [escape_points]. now rewrite forallb_app, printable_escape_point, IH.
Qed.

Lemma printable_escape_chars s : forallb printable (escape_chars s) = true.
Proof. apply printable_escape_points. Qed.

Lemma printable_print_signed i : forallb printable (print_signed i) = true.
Proof.
  destruct i; cbn [print_signed forallb]; now rewrite printable_chars_of_uint.
Qed.

Lemma printable_print_fraction f : forallb printable (print_fraction f) = true.
Proof.
  destruct f; try reflexivity; unfold print_fraction;
    cbn [forallb]; now rewrite printable_chars_of_uint.
Qed.

Lemma printable_print_exponent e : forallb printable (print_exponent e) = true.
Proof.
  destruct e; cbn [print_exponent forallb]; now rewrite printable_chars_of_uint.
Qed.

Lemma printable_print_float x : forallb printable (print_float x) = true.
Proof.
  destruct x as [[i f | i f e] | [ | ] | ]; try reflexivity; cbn [print_float];
    now rewrite !forallb_app, ?printable_print_signed, ?printable_print_fraction,
      ?printable_print_exponent.
Qed.

Lemma printable_print_string s : forallb printable (print_string s) = true.
Proof.
  unfold print_string. cbn [forallb].
  now rewrite forallb_app, printable_escape_chars.
Qed.

Lemma printable_join_comma chunks :
  Forall (fun chunk => forallb printable chunk = true) chunks ->
  forallb printable (join_comma chunks) = true.
Proof.
  induction 1 as [ | c cs Hc Hcs IH ]; [ reflexivity | ].
  destruct cs as [ | c' cs ]; [ exact Hc | ].
  change (join_comma (c :: c' :: cs))
    with (c ++ [","; " "]%char ++ join_comma (c' :: cs)).
  now rewrite !forallb_app, Hc, IH.
Qed.

(** X18.  The text [json.dumps] makes of a recipe is printable ASCII only:
    whatever characters the strings of the recipe hold and whatever its
    numbers are, the stored text has no control character, no line break
    and no character above the tilde. *)
Theorem dumps_is_printable_ascii v :
  forallb printable (list_ascii_of_string (dumps v)) = true.
Proof.
  unfold dumps. rewrite list_ascii_of_string_of_list_ascii.
  induction v as [ | b | z | s | l IH | m IH | x ] using json_nested_ind.
  7: apply printable_print_float.
  - reflexivity.
  - now destruct b.
  - apply printable_print_int.
  - apply printable_print_string.
  - cbn [print forallb]. rewrite forallb_app, printable_join_comma; [ reflexivity | ].
    now apply Forall_map.
  - cbn [print forallb]. rewrite forallb_app, printable_join_comma; [ reflexivity | ].
    apply Forall_map. eapply Forall_impl; [ exact IH | ].
    intros [k x] Hx. cbn [fst snd] in *.
    rewrite forallb_app, printable_print_string. cbn [forallb]. exact Hx.
Qed.

(** ** The further properties on the example data *)

(** A barista, who may read the details only, asks to delete a drink. *)
Lemma refused_request_never_reaches_the_store_witness :
  exists e,
    (status_code e = 401 \/ status_code e = 400 \/ status_code e = 403) /\
    serve example_jwt (DeleteDrinks 1) (mkRequest (Some "Bearer barista") (Decoded JNull)) one_drink
    = (jsonify (error_body (status_code e) (error_description e)) (status_code e),
       one_drink) /\
    forall st', (serve example_jwt (DeleteDrinks 1)
                   (mkRequest (Some "Bearer barista") (Decoded JNull)) st').1
                = (serve example_jwt (DeleteDrinks 1)
                     (mkRequest (Some "Bearer barista") (Decoded JNull)) one_drink).1.
Proof.
  apply (refused_request_never_reaches_the_store example_jwt (DeleteDrinks 1)
           "delete:drinks" (mkRequest (Some "Bearer barista") (Decoded JNull)) one_drink);
    reflexivity.
Defined.

(** A POST whose body is a list of two strings, neither of them [recipe]. *)
Lemma post_drinks_without_recipe_witness :
  serve example_jwt PostDrinks (manager_request (JArr [JStr "title"; JStr "Tea"])) one_drink
  = (jsonify (error_body 422 "unprocessable") 422, one_drink).
Proof.
  apply (post_drinks_without_recipe example_jwt
           (manager_request (JArr [JStr "title"; JStr "Tea"])) one_drink
           (JArr [JStr "title"; JStr "Tea"]));
    reflexivity.
Defined.

(** A POST whose body is the list [["title", "recipe"]]. *)
Lemma post_drinks_body_not_a_dict_witness :
  (serve example_jwt PostDrinks
     (manager_request (JArr [JStr "title"; JStr "recipe"])) one_drink).2 = one_drink /\
  status (serve example_jwt PostDrinks
            (manager_request (JArr [JStr "title"; JStr "recipe"])) one_drink).1 <> 200.
Proof.
  apply (post_drinks_body_not_a_dict example_jwt
           (manager_request (JArr [JStr "title"; JStr "recipe"])) one_drink).
  intros m. discriminate.
Defined.

(** A PATCH of the key 7, which the table does not hold, with a list for
    a body. *)
Lemma missing_drink_not_found_witness :
  serve example_jwt (PatchDrinks 7) (manager_request (JArr [])) one_drink
  = ({| status := 404;
        payload := Json (JObj [("success", JBool false); ("error", JNum 404);
                               ("message", JStr "resource not found")]) |},
     {| drinks := drinks one_drink; next_id := next_id one_drink;
        writable := writable one_drink; calls := calls one_drink ++ [OpGet 7] |}).
Proof.
  apply (missing_drink_not_found example_jwt (PatchDrinks 7)
           (manager_request (JArr [])) one_drink 7).
  - left. split; [ reflexivity | ]. split; [ reflexivity | ].
    exists (JArr []). reflexivity.
  - reflexivity.
Defined.

(** A PATCH of the one drink with a string for a body. *)
Lemma patch_drinks_body_not_a_dict_witness :
  serve example_jwt (PatchDrinks 1) (manager_request (JStr "title")) one_drink
  = ({| status := match body (manager_request (JStr "title")) with
                  | Decoded _ => 500
                  | Undecodable why => fault_status why
                  end;
        payload := DefaultErrorPage |}, logged [OpGet 1] one_drink).
Proof.
  apply (patch_drinks_body_not_a_dict example_jwt (manager_request (JStr "title"))
           one_drink 1 water_row).
  - reflexivity.
  - reflexivity.
  - intros m. discriminate.
Defined.

(** A PATCH and a POST whose body is not JSON text. *)
Lemma undecodable_body_is_refused_witness :
  (authorized example_jwt "post:drinks"
     (mkRequest (Some "Bearer manager") (Undecodable BadRequest)) = true ->
   serve example_jwt PostDrinks
     (mkRequest (Some "Bearer manager") (Undecodable BadRequest)) one_drink
   = ({| status := fault_status BadRequest; payload := DefaultErrorPage |}, one_drink)) /\
  (forall i,
     authorized example_jwt "patch:drinks"
       (mkRequest (Some "Bearer manager") (Undecodable BadRequest)) = true ->
     serve example_jwt (PatchDrinks i)
       (mkRequest (Some "Bearer manager") (Undecodable BadRequest)) one_drink
     = ({| status := fault_status BadRequest; payload := DefaultErrorPage |},
        {| drinks := drinks one_drink; next_id := next_id one_drink;
           writable := writable one_drink; calls := calls one_drink ++ [OpGet i] |})) /\
  (fault_status BadRequest = 400 \/ fault_status BadRequest = 415).
Proof.
  apply (undecodable_body_is_refused example_jwt
           (mkRequest (Some "Bearer manager") (Undecodable BadRequest)) one_drink
           BadRequest).
  reflexivity.
Defined.

(** A DELETE with a body that is not JSON text and one without a body. *)
Lemma body_is_read_by_post_and_patch_only_witness :
  serve example_jwt (DeleteDrinks 1)
    (mkRequest (Some "Bearer manager") (Undecodable BadRequest)) one_drink
  = serve example_jwt (DeleteDrinks 1) (manager_request JNull) one_drink.
Proof.
  apply (body_is_read_by_post_and_patch_only example_jwt (DeleteDrinks 1)
           (mkRequest (Some "Bearer manager") (Undecodable BadRequest))
           (manager_request JNull) one_drink).
  - reflexivity.
  - discriminate.
  - intros i. discriminate.
Defined.

(** The detailed listing of two drinks, one of them with a float for
    its parts. *)
Lemma get_drinks_detail_lists_long_forms_witness :
  exists longs,
    serve example_jwt GetDrinksDetail (manager_request JNull) two_drinks
    = ({| status := 200;
          payload := Json (JObj [("success", JBool true); ("drinks", JArr longs)]) |},
       {| drinks := drinks two_drinks; next_id := next_id two_drinks;
          writable := writable two_drinks;
          calls := calls two_drinks ++ [OpListAll] |}) /\
    Forall2 (fun row l =>
               exists r, wf_json r = true /\ recipe row.2 = dumps r /\
                         l = JObj [("id", JNum row.1); ("title", title row.2);
                                   ("recipe", r)])
            (rows_by_id (drinks two_drinks)) longs /\
    StronglySorted Z.lt (rows_by_id (drinks two_drinks)).*1 /\
    (forall i d, (i, d) ∈ rows_by_id (drinks two_drinks) <-> drinks two_drinks !! i = Some d) /\
    List.length longs = size (drinks two_drinks).
Proof.
  apply (get_drinks_detail_lists_long_forms example_jwt (manager_request JNull) two_drinks).
  - reflexivity.
  - exact two_drinks_ok.
Defined.



(** A PATCH with a falsy title and a truthy recipe. *)
Lemma patch_drinks_never_writes_falsy_witness :
  (title (patched water_row [("title", JNum 0); ("recipe", JArr [JStr "tea"])])
   = title water_row \/
   truthy (title (patched water_row [("title", JNum 0); ("recipe", JArr [JStr "tea"])]))
   = true) /\
  (recipe (patched water_row [("title", JNum 0); ("recipe", JArr [JStr "tea"])])
   = recipe water_row \/
   exists r, truthy r = true /\
             recipe (patched water_row [("title", JNum 0); ("recipe", JArr [JStr "tea"])])
             = dumps r).
Proof.
  apply (patch_drinks_never_writes_falsy example_jwt
           (manager_request (JObj [("title", JNum 0); ("recipe", JArr [JStr "tea"])]))
           one_drink 1 water_row
           (patched water_row [("title", JNum 0); ("recipe", JArr [JStr "tea"])]));
    reflexivity.
Defined.

(** A POST leaves the one drink alone. *)
Lemma other_drinks_untouched_witness :
  drinks (serve example_jwt PostDrinks
            (manager_request (JObj [("title", JStr "Tea"); ("recipe", water)]))
            one_drink).2 !! 1 = Some water_row.
Proof.
  apply (other_drinks_untouched example_jwt PostDrinks
           (manager_request (JObj [("title", JStr "Tea"); ("recipe", water)]))
           one_drink 1 water_row).
  - exact one_drink_ok.
  - reflexivity.
  - discriminate.
  - discriminate.
Defined.

(** The keys before and after a PATCH of the one drink. *)
Lemma keys_change_by_post_and_delete_only_witness :
  (PatchDrinks 1 <> PostDrinks ->
   is_Some (drinks (serve example_jwt (PatchDrinks 1)
                      (manager_request (JObj [("title", JStr "Tea")])) one_drink).2 !! 1) ->
   is_Some (drinks one_drink !! 1)) /\
  ((forall i, PatchDrinks 1 <> DeleteDrinks i) ->
   is_Some (drinks one_drink !! 1) ->
   is_Some (drinks (serve example_jwt (PatchDrinks 1)
                      (manager_request (JObj [("title", JStr "Tea")])) one_drink).2 !! 1)).
Proof.
  apply (keys_change_by_post_and_delete_only example_jwt (PatchDrinks 1)
           (manager_request (JObj [("title", JStr "Tea")])) one_drink 1).
Defined.


(** A POST, then a DELETE of the key it assigned. *)
Lemma delete_undoes_post_witness :
  drinks (serve example_jwt (DeleteDrinks (next_id one_drink)) (manager_request JNull)
            (serve example_jwt PostDrinks
               (manager_request (JObj [("title", JStr "Tea"); ("recipe", water)]))
               one_drink).2).2
  = drinks one_drink.
Proof.
  apply (delete_undoes_post example_jwt
           (manager_request (JObj [("title", JStr "Tea"); ("recipe", water)]))
           (manager_request JNull) one_drink
           [("title", JStr "Tea"); ("recipe", water)] (JStr "Tea") water);
    try reflexivity.
  exact one_drink_ok.
Defined.

(** The public listing after two POSTs, one of them with a float for
    its parts, and a DELETE, on the empty database. *)
Lemma listing_never_fails_witness :
  exists shorts,
    (serve example_jwt GetDrinks (anonymous_request JNull)
       (serve_all example_jwt
          [(PostDrinks, manager_request (JObj [("title", JStr "Tea"); ("recipe", water)]));
           (PostDrinks, manager_request (JObj [("title", JStr "Crème"); ("recipe", creme)]));
           (DeleteDrinks 1, manager_request JNull)]
          empty_store)).1
    = {| status := 200;
         payload := Json (JObj [("success", JBool true); ("drinks", JArr shorts)]) |} /\
    List.length shorts
    = size (drinks (serve_all example_jwt
                      [(PostDrinks,
                        manager_request (JObj [("title", JStr "Tea"); ("recipe", water)]));
                       (PostDrinks,
                        manager_request (JObj [("title", JStr "Crème"); ("recipe", creme)]));
                       (DeleteDrinks 1, manager_request JNull)]
                      empty_store)).
Proof.
  apply (listing_never_fails example_jwt
           [(PostDrinks, manager_request (JObj [("title", JStr "Tea"); ("recipe", water)]));
            (PostDrinks, manager_request (JObj [("title", JStr "Crème"); ("recipe", creme)]));
            (DeleteDrinks 1, manager_request JNull)]
           (anonymous_request JNull) empty_store).
  - exact empty_store_ok.
  - repeat constructor.
Defined.

(** The answer to a DELETE of the one drink. *)
Lemma success_answers_witness :
  payload (serve example_jwt (DeleteDrinks 1) (manager_request JNull) one_drink).1
  = Json (JObj [("success", JBool true); ("deleted", JNum 1)]) /\
  is_Some (drinks one_drink !! 1) /\
  drinks (serve example_jwt (DeleteDrinks 1) (manager_request JNull) one_drink).2
  = delete 1 (drinks one_drink).
Proof.
  apply (success_answers example_jwt (DeleteDrinks 1) (manager_request JNull) one_drink).
  reflexivity.
Defined.


(** ** What the handlers read of a body *)

Section Bodies.

Variable verify_decode_jwt : string -> Verdict.

(** X19.  A PATCH reads the title and the recipe of its body and nothing
    else: two requests with the same header whose dicts supply the same
    title and the same recipe get the same answer and leave the same
    database, whatever other keys the dicts hold (an [id] in the body
    changes nothing). *)
Theorem patch_drinks_reads_title_and_recipe_only req req' st i m m' :
  authorization req = authorization req' ->
  body req = Decoded (JObj m) ->
  body req' = Decoded (JObj m') ->
  supplied "title" m = supplied "title" m' ->
  supplied "recipe" m = supplied "recipe" m' ->
  serve verify_decode_jwt (PatchDrinks i) req st
  = serve verify_decode_jwt (PatchDrinks i) req' st.
Proof.
  intros Hh Hb Hb' Ht Hr. unfold serve.
  now rewrite (patch_drinks_supplied verify_decode_jwt req req' st i m m' Hh Hb Hb' Ht Hr).
Qed.

(** X20.  A POST reads the title and the recipe of its body and nothing
    else: two requests with the same header whose dicts hold the same
    title and the same recipe get the same answer and leave the same
    database; the key of the new drink is the one the store assigns, not
    one the body names. *)
Theorem post_drinks_reads_title_and_recipe_only req req' st m m' :
  authorization req = authorization req' ->
  body req = Decoded (JObj m) ->
  body req' = Decoded (JObj m') ->
  dict_get "title" m = dict_get "title" m' ->
  dict_get "recipe" m = dict_get "recipe" m' ->
  serve verify_decode_jwt PostDrinks req st
  = serve verify_decode_jwt PostDrinks req' st.
Proof.
  intros Hh Hb Hb' Ht Hr. unfold serve.
  destruct (authorized verify_decode_jwt "post:drinks" req) eqn:Hauth.
  - pose proof Hauth as Hauth'.
    rewrite (authorized_header verify_decode_jwt _ _ _ Hh) in Hauth'.
    rewrite (post_drinks_run _ _ _ _ Hauth Hb), (post_drinks_run _ _ _ _ Hauth' Hb').
    now rewrite Ht, Hr.
  - cbn [view]. unfold post_drinks.
    rewrite <- (requires_auth_header verify_decode_jwt _ _ req req' _ Hh).
    destruct (requires_auth_denied verify_decode_jwt _ _ Hauth) as (e & He & _).
    now rewrite !He.
Qed.

End Bodies.

(** A PATCH with an [id] beside the title. *)
Lemma patch_drinks_reads_title_and_recipe_only_witness :
  serve example_jwt (PatchDrinks 1)
    (manager_request (JObj [("id", JNum 9); ("title", JStr "Tea")])) one_drink
  = serve example_jwt (PatchDrinks 1)
      (manager_request (JObj [("title", JStr "Tea")])) one_drink.
Proof.
  apply (patch_drinks_reads_title_and_recipe_only example_jwt
           (manager_request (JObj [("id", JNum 9); ("title", JStr "Tea")]))
           (manager_request (JObj [("title", JStr "Tea")])) one_drink 1
           [("id", JNum 9); ("title", JStr "Tea")] [("title", JStr "Tea")]);
    reflexivity.
Defined.

(** A POST with an [id] beside the title and the recipe. *)
Lemma post_drinks_reads_title_and_recipe_only_witness :
  serve example_jwt PostDrinks
    (manager_request (JObj [("id", JNum 9); ("title", JStr "Tea"); ("recipe", water)]))
    one_drink
  = serve example_jwt PostDrinks
      (manager_request (JObj [("title", JStr "Tea"); ("recipe", water)])) one_drink.
Proof.
  apply (post_drinks_reads_title_and_recipe_only example_jwt
           (manager_request (JObj [("id", JNum 9); ("title", JStr "Tea"); ("recipe", water)]))
           (manager_request (JObj [("title", JStr "Tea"); ("recipe", water)])) one_drink
           [("id", JNum 9); ("title", JStr "Tea"); ("recipe", water)]
           [("title", JStr "Tea"); ("recipe", water)]);
    reflexivity.
Defined.
